(** * pyGPTify: a shallow embedding of [pygptify.py]

    The script reads a Python file, asks a chat-completion service to
    rewrite it under a fixed "clean code" prompt, strips the code fence off
    the reply, parses the candidate with [ast.parse] and writes it back when
    it parses.  Syntax errors of a candidate are fed into the next prompt.

    Python [str] values are sequences of Unicode code points and are
    modelled as [list N].  The interpreter's libraries ([ast], [openai],
    [difflib], [str.splitlines]) are an interface the development is
    parametric in; the file system, the requests sent to the service and
    the console are an explicit world threaded through a state-and-exception
    monad. *)

From stdpp Require Import gmap list strings pretty.

Open Scope Z_scope.

(** ** Python strings *)

Abbreviation str := (list N).

(** A Rocq literal read as a Python string (one code point per character). *)
Definition lit (s : string) : str :=
  Ascii.N_of_ascii <$> String.list_ascii_of_string s.

Definition DQUOTE : str := [34%N].

(** [str()] of a Python [int], as an f-string renders it. *)
Definition str_of_int (n : Z) : str := lit (pretty n).

(** [str.isspace] on one code point: the table the interpreter uses for
    [str.strip()] without arguments. *)
Definition isspace (c : N) : bool :=
  ((9 <=? c) && (c <=? 13) || (28 <=? c) && (c <=? 32)
   || (c =? 133) || (c =? 160) || (c =? 5760)
   || (8192 <=? c) && (c <=? 8202)
   || (c =? 8232) || (c =? 8233) || (c =? 8239) || (c =? 8287)
   || (c =? 12288))%N.

Fixpoint lstrip (s : str) : str :=
  match s with
  | c :: s' => if isspace c then lstrip s' else s
  | [] => []
  end.

Definition rstrip (s : str) : str := reverse (lstrip (reverse s)).

(** [s.strip()] *)
Definition strip (s : str) : str := rstrip (lstrip s).

(** [s.startswith(p)] *)
Fixpoint startswith (s p : str) {struct p} : bool :=
  match p, s with
  | [], _ => true
  | a :: p', b :: s' => (a =? b)%N && startswith s' p'
  | _ :: _, [] => false
  end.

(** [s.endswith(p)] *)
Definition endswith (s p : str) : bool := startswith (reverse s) (reverse p).

(** [s[n:]] for [0 <= n] *)
Definition slice_from (n : nat) (s : str) : str := drop n s.

(** [s[:-n]] for [0 < n]: everything but the last [n] code points, and the
    empty string when [s] is shorter than [n]. *)
Definition slice_to_last (n : nat) (s : str) : str := take (length s - n) s.

(** [sep.join(parts)] *)
Fixpoint join (sep : str) (parts : list str) : str :=
  match parts with
  | [] => []
  | [p] => p
  | p :: ps => p ++ sep ++ join sep ps
  end.

(** ** Code Extractor: [extract_code] *)

Definition BACKTICKS : str := lit "```".

Definition extract_code (response : str) : str :=
  let script := strip response in
  let script :=
    if startswith script BACKTICKS
    then slice_from (length BACKTICKS) script else script in
  let script :=
    if endswith script BACKTICKS
    then slice_to_last (length BACKTICKS) script else script in
  script.

(** ** Prompt Builder: [create_prompt] *)

Definition INSTRUCTIONS : str :=
  lit "
Please refactor the python code according to clean code principles:

## Design rules
1. Keep configurable data at high levels.
2. Prefer polymorphism to if/else or switch/case.
3. Separate multi-threading code.
4. Prevent over-configurability.
5. Use dependency injection.
6. Follow Law of Demeter. A class should know only its direct dependencies.

## Understandability tips
1. Be consistent. If you do something a certain way, do all similar things in the same way.
2. Use explanatory variables.
3. Encapsulate boundary conditions. Boundary conditions are hard to keep track of. Put the processing for them in one place.
4. Prefer dedicated value objects to primitive type.
5. Avoid logical dependency. Don't write methods which works correctly depending on something else in the same class.
6. Avoid negative conditionals.

## Names rules
1. Choose descriptive and unambiguous names.
2. Make meaningful distinction.
3. Use pronounceable names.
4. Use searchable names.
5. Replace magic numbers with named constants.
6. Avoid encodings. Don't append prefixes or type information.

## Functions rules
1. Small.
2. Do one thing.
3. Use descriptive names.
4. Prefer fewer arguments.
5. Have no side effects.
6. Don't use flag arguments. Split method into several independent methods that can be called from the client without the flag.

## Comments rules
1. Always try to explain yourself in code.
2. Don't be redundant.
3. Don't add obvious noise.
4. Don't use closing brace comments.
5. Don't comment out code. Just remove.
6. Use as explanation of intent.
7. Use as clarification of code.
8. Use as warning of consequences.

## Source code structure
1. Separate concepts vertically.
2. Related code should appear vertically dense.
3. Declare variables close to their usage.
4. Dependent functions should be close.
5. Similar functions should be close.
6. Place functions in the downward direction.
7. Keep lines short.
8. Don't use horizontal alignment.
9. Use white space to associate related things and disassociate weakly related.
10. Don't break indentation.

## Objects and data structures
1. Hide internal structure.
2. Prefer data structures.
3. Avoid hybrids structures (half object and half data).
4. Should be small.
5. Do one thing.
6. Small number of instance variables.
7. Base class should know nothing about their derivatives.
8. Better to have many functions than to pass some code into a function to select a behavior.
9. Prefer non-static methods to static methods.

## Tests
1. One assert per test.
2. Readable.
3. Fast.
4. Independent.
5. Repeatable.


Please return just the python code and nothing else.
Do not change places that have a comment that says " ++ DQUOTE ++ lit "do not change" ++ DQUOTE ++ lit ".

".

(** The text of the first f-string after [{source}]: a newline and the four
    blanks before the closing quotes. *)
Definition PROMPT_TAIL : str := lit "
    ".

Definition HINT_INTRO : str := lit "
        The following error was raised when trying to compile a previous recommendation.
        So use that as a hint to fix the code:
        ".

Definition HINT_OUTRO : str := lit "
        ".

(** The prompt before the optional hint is appended. *)
Definition base_prompt (source : str) : str :=
  INSTRUCTIONS ++ source ++ PROMPT_TAIL.

(** The block appended by [prompt += ...] under [if error:]. *)
Definition hint_block (error : str) : str :=
  HINT_INTRO ++ error ++ HINT_OUTRO.

(** Truth value of a [str] in [if error:]. *)
Definition truthy (s : str) : bool :=
  match s with [] => false | _ :: _ => true end.

Definition create_prompt (source error : str) : str :=
  let prompt := base_prompt source in
  let prompt := if truthy error then prompt ++ hint_block error else prompt in
  prompt.

(** ** Exceptions, the world and the monad *)

(** The exceptions the script can meet.  [SyntaxError] carries [str(e)];
    [OtherError] stands for every exception class the script never names
    (transport and authentication failures, [ValueError], ...). *)
Inductive exn : Type :=
  | SyntaxError (msg : str)
  | RuntimeError (msg : str)
  | OSError (filename : str)
  | OtherError (what : str).

Inductive outcome (A : Type) : Type :=
  | Return (a : A)
  | Raise (e : exn).
Arguments Return {A} a.
Arguments Raise {A} e.

(** What the script reads off [completion.choices[0]]. *)
Record completion : Type := Completion {
  finish_reason : str;
  content : str
}.

(** The library calls of the script.  The completion service answers the
    [n]-th request of a run (counted from 0) as a function of [n] and of the
    prompt, which covers every scripted stub and every run of a real
    service. *)
Class Libraries : Type := {
  ast_parse : str → outcome unit;
  ChatCompletion_create : nat → str → outcome completion;
  splitlines : str → list str;
  unified_diff : list str → list str → list str
}.

(** The world outside the interpreter.  [files] gives the content of each
    file as text.  [readonly] holds the names on which a write fails; for
    such a name [torn] tells how the write fails: with no entry [open]
    itself raises, with entry [k] [open] succeeds, which empties the file,
    and the write raises when [k] code points have reached the disk.  Then
    three logs: the requests sent to the completion service, the writes
    that went through, the lines printed. *)
Record world : Type := World {
  files : gmap (list N) (list N);
  readonly : gset (list N);
  torn : gmap (list N) nat;
  requests : list str;
  writes : list (str * str);
  stdout : list str
}.

Definition M (A : Type) : Type := world → outcome A * world.

Definition ret {A} (a : A) : M A := λ w, (Return a, w).

Definition raise {A} (e : exn) : M A := λ w, (Raise e, w).

Definition bind {A B} (m : M A) (k : A → M B) : M B :=
  λ w, match m w with
       | (Return a, w') => k a w'
       | (Raise e, w') => (Raise e, w')
       end.

Declare Scope py_scope.
Delimit Scope py_scope with py.
Notation "'let*' p := m 'in' k" := (bind m (λ p, k))
  (at level 10, p pattern, m at level 100, k at level 200) : py_scope.
Notation "m ;; k" := (bind m (λ _, k))
  (at level 100, right associativity) : py_scope.

(** [try: body / except SyntaxError as e: handler e].  Every other exception
    leaves the statement as it came. *)
Definition try_except_SyntaxError {A} (body : M A) (handler : exn → M A) : M A :=
  λ w, match body w with
       | (Raise (SyntaxError msg), w') => handler (SyntaxError msg) w'
       | r => r
       end.

(** [str(e)] *)
Definition str_of_exn (e : exn) : str :=
  match e with
  | SyntaxError msg | RuntimeError msg | OSError msg | OtherError msg => msg
  end.

(** [for x in xs: state = body x state] *)
Fixpoint for_each {A S} (xs : list A) (body : A → S → M S) (s : S) : M S :=
  match xs with
  | [] => ret s
  | x :: xs' => (let* s' := body x s in for_each xs' body s')%py
  end.

(** [range(n)]: empty when [n <= 0]. *)
Definition range (n : Z) : list Z := Z.of_nat <$> seq 0 (Z.to_nat n).

(** The ways the script changes the world. *)
Definition printed (line : str) (w : world) : world :=
  World (files w) (readonly w) (torn w) (requests w) (writes w)
        (stdout w ++ [line]).

Definition requested (prompt : str) (w : world) : world :=
  World (files w) (readonly w) (torn w) (requests w ++ [prompt]) (writes w)
        (stdout w).

Definition written (filename text : str) (w : world) : world :=
  World (<[filename := text]> (files w)) (readonly w) (torn w) (requests w)
        (writes w ++ [(filename, text)]) (stdout w).

(** A write that broke off: the file holds [remains], nothing is logged. *)
Definition cut_short (filename remains : str) (w : world) : world :=
  World (<[filename := remains]> (files w)) (readonly w) (torn w) (requests w)
        (writes w) (stdout w).

(** [print(s)] *)
Definition print (s : str) : M unit := λ w, (Return tt, printed s w).

(** ** File I/O

    For a file found on the disk [files] holds the text [file.read()]
    returns, for a file the script wrote the text it handed to
    [file.write]; the translation of line ends between the two is not
    modelled ([main] never reads what it wrote).

    [write_file] has no atomic write: [open(filename, "w")] empties the
    file before a code point is written, so a write that raises after
    [open] leaves the beginning of the text, or nothing.  [OSError] stands
    for whatever the failing call raises; it is never a [SyntaxError]. *)

Definition read_file (filename : str) : M str :=
  λ w, match files w !! filename with
       | Some text => (Return text, w)
       | None => (Raise (OSError filename), w)
       end.

Definition write_file (filename source : str) : M unit :=
  λ w, if decide (filename ∈ readonly w)
       then match torn w !! filename with
            | None => (Raise (OSError filename), w)
            | Some k =>
                (Raise (OSError filename), cut_short filename (take k source) w)
            end
       else (Return tt, written filename source w).

Section Program.
Context `{Libraries}.

(** ** Syntax Validator *)

Definition compile_source (source : str) : M unit :=
  λ w, (ast_parse source, w).

(** ** Completion Client *)

(** [openai.ChatCompletion.create(model=..., messages=[user: prompt])]:
    the request is logged, the service answers. *)
Definition openai_request (prompt : str) : M completion :=
  λ w, (ChatCompletion_create (length (requests w)) prompt, requested prompt w).

Definition call_openai (prompt : str) : M str :=
  (let* completion := openai_request prompt in
   if decide (finish_reason completion = lit "length")
   then raise (RuntimeError (lit "Too large"))
   else ret (content completion))%py.

Definition format_source (source error : str) : M (str * str) :=
  (let prompt := create_prompt source error in
   let* response := call_openai prompt in
   let new_source := extract_code response in
   ret (new_source, []))%py.

(** ** Console *)

Definition print_diff (string1 string2 : str) : M unit :=
  let lines1 := splitlines string1 in
  let lines2 := splitlines string2 in
  let diff := unified_diff lines1 lines2 in
  print (join (lit "
") diff).

Definition print_iteration_details (iteration : Z) (source new_source : str) : M unit :=
  (print (lit "=====================================") ;;
   print (lit "Iteration: " ++ str_of_int iteration) ;;
   print_diff source new_source)%py.

Definition print_error (error : str) : M unit := print error.

(** ** Iteration Driver *)

(** One pass through the body of the [for] loop.  The loop carries the
    locals [source] and [error]; [new_source] is assigned afresh before
    each use.  Inside [try], [compile_source] is the only call that can
    raise [SyntaxError], and it runs before [source] is assigned, so the
    handler sees the [source] the round started with. *)
Definition round (filename : str) (iteration : Z) (st : str * str) : M (str * str) :=
  (let '(source, error) := st in
   let* (new_source, error) := format_source source error in
   print_iteration_details (iteration + 1) source new_source ;;
   try_except_SyntaxError
     (compile_source new_source ;;
      let source := new_source in
      write_file filename source ;;
      ret (source, error))
     (λ e,
      let error := str_of_exn e in
      print_error error ;;
      ret (source, error)))%py.

Definition main (filename : str) (iterations : Z) : M unit :=
  (print (lit "Formatting " ++ filename ++ lit " " ++ str_of_int iterations
          ++ lit " times...") ;;
   let* source := read_file filename in
   compile_source source ;;
   let error := [] in
   let* (source, error) :=
     for_each (range iterations) (round filename) (source, error) in
   print (lit "Formatted " ++ filename ++ lit "."))%py.

End Program.

(** ** Vocabulary of the statements *)

Section Vocabulary.
Context `{Libraries}.

(** The first line [main] prints. *)
Definition banner (filename : str) (iterations : Z) : str :=
  lit "Formatting " ++ filename ++ lit " " ++ str_of_int iterations
  ++ lit " times...".

(** The last line [main] prints. *)
Definition farewell (filename : str) : str :=
  lit "Formatted " ++ filename ++ lit ".".

(** The world after [print_iteration_details iteration source new_source]. *)
Definition shown (iteration : Z) (source new_source : str) (w : world) : world :=
  printed (join (lit "
") (unified_diff (splitlines source) (splitlines new_source)))
    (printed (lit "Iteration: " ++ str_of_int iteration)
       (printed (lit "=====================================") w)).

(** The text passes syntax validation. *)
Definition parses (text : str) : bool :=
  match ast_parse text with Return _ => true | Raise _ => false end.

(** The candidates of the rounds whose requests were [prompts], the first of
    them being request number [first] of the run. *)
Fixpoint candidates (first : nat) (prompts : list str) : list str :=
  match prompts with
  | [] => []
  | p :: ps =>
      match ChatCompletion_create first p with
      | Return c => extract_code (content c) :: candidates (S first) ps
      | Raise _ => candidates (S first) ps
      end
  end.

(** The last candidate that parses, and [initial] when none does. *)
Definition last_valid (initial : str) (cands : list str) : str :=
  foldl (λ good cand, if parses cand then cand else good) initial cands.

(** The prompt built for [source] ends in a hint block. *)
Definition has_hint_block (source prompt : str) : Prop :=
  ∃ error, prompt = base_prompt source ++ hint_block error.

(** [needle] occurs in [text]. *)
Definition occurs_in (needle text : str) : Prop :=
  ∃ before after, text = before ++ needle ++ after.





End Vocabulary.

(** ** Test doubles

    A scripted completion service and a table-driven parser, used to run the
    driver on concrete inputs. *)
Module Stub.

(** Texts listed in [rejected] raise the exception listed with them; every
    other text parses. *)
Definition parser (rejected : list (str * exn)) (text : str) : outcome unit :=
  match list_find (λ entry, entry.1 = text) rejected with
  | Some (_, (_, e)) => Raise e
  | None => Return tt
  end.

(** The [n]-th request is answered by the [n]-th scripted reply; the
    service is unreachable once the script is used up. *)
Definition service (replies : list (outcome completion)) (n : nat) (prompt : str)
  : outcome completion :=
  match replies !! n with
  | Some reply => reply
  | None => Raise (OtherError (lit "connection refused"))
  end.

Definition libraries (rejected : list (str * exn))
    (replies : list (outcome completion)) : Libraries :=
  {| ast_parse := parser rejected;
     ChatCompletion_create := service replies;
     splitlines := λ s, [s];
     unified_diff := λ a b, a ++ b |}.

Definition stop (text : str) : outcome completion :=
  Return (Completion (lit "stop") text).


(** A disk with one writable file. *)
Definition disk (filename text : str) : world :=
  World {[ filename := text ]} ∅ ∅ [] [] [].

(** Fixtures: a file name, two texts that parse, two that do not. *)
Definition a_py : str := lit "a.py".
Definition x_is_1 : str := lit "x = 1".
Definition y_is_2 : str := lit "y = 2".
Definition broken_def : str := lit "def f(:".
Definition broken_if : str := lit "if x".
Definition E1 : str := lit "invalid syntax (<unknown>, line 1)".
Definition E2 : str := lit "expected ':' (<unknown>, line 1)".

Definition rejected : list (str * exn) :=
  [(broken_def, SyntaxError E1); (broken_if, SyntaxError E2)].

Definition fenced (text : str) : str := BACKTICKS ++ text ++ BACKTICKS.

(** Libraries whose service plays [replies] and whose parser rejects the
    two broken texts. *)
Definition playing (replies : list (outcome completion)) : Libraries :=
  libraries rejected replies.

(** A disk whose one file cannot be opened for writing. *)
Definition locked_disk (filename text : str) : world :=
  World {[ filename := text ]} {[ filename ]} ∅ [] [] [].


Definition b_py : str := lit "b.py".


(** Libraries whose parser raises something other than [SyntaxError] on
    [text]. *)
Definition choking_on (text : str) (replies : list (outcome completion))
  : Libraries :=
  libraries [(text, OtherError (lit "source code string cannot contain null bytes"))]
            replies.

End Stub.

(** * Properties *)

(** ** The embedding at work *)

Example extract_code_trims_first :
  extract_code (lit "  ```X```
") = lit "X".
Proof. reflexivity. Qed.

Example extract_code_keeps_language_tag :
  extract_code (lit "```python
x = 1
```") = lit "python
x = 1
".
Proof. reflexivity. Qed.

Example extract_code_unbalanced_fence :
  extract_code (lit "x = 1```") = lit "x = 1".
Proof. reflexivity. Qed.

Example range_three : range 3 = [0; 1; 2].
Proof. reflexivity. Qed.

Example range_negative : range (-2) = [].
Proof. reflexivity. Qed.

(** Three iterations on [x = 1]: the first candidate is stored, the next
    two do not parse. *)
Example run_stored_then_rejected :
  let L := Stub.playing [Stub.stop (Stub.fenced Stub.y_is_2);
                         Stub.stop (Stub.fenced Stub.broken_def);
                         Stub.stop (Stub.fenced Stub.broken_if)] in
  let run := main Stub.a_py 3 (Stub.disk Stub.a_py Stub.x_is_1) in
  run.1 = Return tt
  ∧ files run.2 !! Stub.a_py = Some Stub.y_is_2
  ∧ writes run.2 = [(Stub.a_py, Stub.y_is_2)]
  ∧ requests run.2 = [create_prompt Stub.x_is_1 [];
                      create_prompt Stub.y_is_2 [];
                      create_prompt Stub.y_is_2 Stub.E1]
  ∧ last (stdout run.2) = Some (farewell Stub.a_py).
Proof. vm_compute. done. Qed.

(** The service goes away in the second round: the exception ends the run,
    the file keeps the first candidate. *)
Example run_service_lost :
  let L := Stub.playing [Stub.stop (Stub.fenced Stub.y_is_2)] in
  let run := main Stub.a_py 3 (Stub.disk Stub.a_py Stub.x_is_1) in
  run.1 = Raise (OtherError (lit "connection refused"))
  ∧ files run.2 !! Stub.a_py = Some Stub.y_is_2
  ∧ length (requests run.2) = 2%nat.
Proof. vm_compute. done. Qed.

(** ** The extractor *)

Section Extractor.
Implicit Types s p : str.

Lemma BACKTICKS_unfold : BACKTICKS = [96; 96; 96]%N.
Proof. reflexivity. Qed.

Lemma lstrip_head c s : isspace c = false → lstrip (c :: s) = c :: s.
Proof. intros Hc. simpl. by rewrite Hc. Qed.

Lemma rstrip_last s c : isspace c = false → rstrip (s ++ [c]) = s ++ [c].
Proof.
  intros Hc. unfold rstrip. rewrite reverse_snoc, (lstrip_head _ _ Hc).
  by rewrite reverse_cons, reverse_involutive.
Qed.

(** Text that starts and ends with a backtick has nothing to strip. *)
Lemma strip_fenced s :
  strip (BACKTICKS ++ s ++ BACKTICKS) = BACKTICKS ++ s ++ BACKTICKS.
Proof.
  unfold strip. rewrite BACKTICKS_unfold.
  change ([96; 96; 96]%N ++ s ++ [96; 96; 96]%N)
    with (96%N :: ([96; 96]%N ++ s ++ [96; 96; 96]%N)).
  rewrite lstrip_head by reflexivity.
  replace (96%N :: [96; 96]%N ++ s ++ [96; 96; 96]%N)
    with ((96%N :: [96; 96]%N ++ s ++ [96; 96]%N) ++ [96%N]).
  - by apply rstrip_last.
  - simpl. by rewrite <- !app_assoc.
Qed.

Lemma startswith_app p s : startswith (p ++ s) p = true.
Proof. induction p as [|c p IH]; simpl; [done|]. by rewrite N.eqb_refl. Qed.

Lemma endswith_app s p : endswith (s ++ p) p = true.
Proof. unfold endswith. rewrite reverse_app. apply startswith_app. Qed.

Lemma slice_from_app p s : slice_from (length p) (p ++ s) = s.
Proof. apply drop_app_length. Qed.

Lemma slice_to_last_app s p : slice_to_last (length p) (s ++ p) = s.
Proof.
  unfold slice_to_last. rewrite length_app, Nat.add_sub. apply take_app_length.
Qed.

(** Exactly one marker is taken off each end of a fenced reply. *)
Lemma extract_code_fenced s : extract_code (BACKTICKS ++ s ++ BACKTICKS) = s.
Proof.
  unfold extract_code. rewrite strip_fenced, startswith_app, slice_from_app.
  by rewrite endswith_app, slice_to_last_app.
Qed.

(** A reply without fence at either edge and without blanks around it is
    its own candidate. *)
Lemma extract_code_plain s :
  strip s = s →
  startswith s BACKTICKS = false →
  endswith s BACKTICKS = false →
  extract_code s = s.
Proof. intros Hs Hst Hen. unfold extract_code. by rewrite Hs, Hst, Hen. Qed.

End Extractor.

(** ** One round of the driver *)

Section Round.
Context `{Libraries}.
Implicit Types (filename source error : str) (w : world) (c : completion).

Lemma print_iteration_details_eq i source new_source w :
  print_iteration_details i source new_source w
  = (Return tt, shown i source new_source w).
Proof. reflexivity. Qed.

(** The service fails: the exception leaves [round]. *)
Lemma round_unanswered filename i source error w e :
  ChatCompletion_create (length (requests w)) (create_prompt source error)
    = Raise e →
  round filename i (source, error) w
  = (Raise e, requested (create_prompt source error) w).
Proof.
  intros Hc. unfold round, format_source, call_openai, openai_request, bind.
  by rewrite Hc.
Qed.

(** The reply was cut off. *)
Lemma round_truncated filename i source error w c :
  ChatCompletion_create (length (requests w)) (create_prompt source error)
    = Return c →
  finish_reason c = lit "length" →
  round filename i (source, error) w
  = (Raise (RuntimeError (lit "Too large")),
     requested (create_prompt source error) w).
Proof.
  intros Hc Hlen. unfold round, format_source, call_openai, openai_request, bind.
  rewrite Hc. by rewrite decide_True.
Qed.

(** The reply is complete: the candidate is shown, parsed, and either
    stored or turned into the next hint. *)
Lemma round_answered filename i source error w c :
  ChatCompletion_create (length (requests w)) (create_prompt source error)
    = Return c →
  finish_reason c ≠ lit "length" →
  let new_source := extract_code (content c) in
  let w1 := shown (i + 1) source new_source
              (requested (create_prompt source error) w) in
  round filename i (source, error) w
  = match ast_parse new_source with
    | Return _ =>
        if decide (filename ∈ readonly w)
        then match torn w !! filename with
             | None => (Raise (OSError filename), w1)
             | Some k =>
                 (Raise (OSError filename),
                  cut_short filename (take k new_source) w1)
             end
        else (Return (new_source, []), written filename new_source w1)
    | Raise (SyntaxError msg) => (Return (source, msg), printed msg w1)
    | Raise e => (Raise e, w1)
    end.
Proof.
  intros Hc Hlen new_source w1.
  unfold round, format_source, call_openai, openai_request, bind.
  rewrite Hc, decide_False by done. unfold ret at 1 2.
  rewrite print_iteration_details_eq. fold new_source. fold w1.
  unfold try_except_SyntaxError, bind, compile_source, write_file.
  destruct (ast_parse new_source) as [[]|[]]; try reflexivity.
  change (readonly w1) with (readonly w). change (torn w1) with (torn w).
  destruct (decide (filename ∈ readonly w)); [|done].
  by destruct (torn w !! filename).
Qed.

End Round.

(** ** The driver around the loop *)

Section Driver.
Context `{Libraries}.
Implicit Types (filename source error : str) (w : world) (n : Z).

(** [main] on a file that exists and parses: the banner, the loop, the
    farewell. *)
Lemma main_valid filename n w source :
  files w !! filename = Some source →
  ast_parse source = Return tt →
  main filename n w
  = match for_each (range n) (round filename) (source, [])
            (printed (banner filename n) w) with
    | (Return _, w') => (Return tt, printed (farewell filename) w')
    | (Raise e, w') => (Raise e, w')
    end.
Proof.
  intros Hfile Hok. unfold main, bind at 1 2 3, print, read_file, compile_source.
  change (files (printed _ w)) with (files w). rewrite Hfile, Hok.
  unfold bind. fold (banner filename n).
  by destruct (for_each _ _ _ _) as [[[? ?]|?] ?].
Qed.

Lemma main_invalid filename n w source e :
  files w !! filename = Some source →
  ast_parse source = Raise e →
  main filename n w = (Raise e, printed (banner filename n) w).
Proof.
  intros Hfile Hbad. unfold main, bind at 1 2 3, print, read_file, compile_source.
  change (files (printed _ w)) with (files w). by rewrite Hfile, Hbad.
Qed.

Lemma main_missing filename n w :
  files w !! filename = None →
  main filename n w = (Raise (OSError filename), printed (banner filename n) w).
Proof.
  intros Hfile. unfold main, bind at 1 2, print, read_file.
  change (files (printed _ w)) with (files w). by rewrite Hfile.
Qed.

Lemma range_nonpositive n : n ≤ 0 → range n = [].
Proof. intros Hn. unfold range. by rewrite Z2Nat.nonpos. Qed.

(** Without rounds [main] only prints, reads and validates. *)
Lemma main_no_rounds filename n w :
  n ≤ 0 →
  main filename n w
  = match files w !! filename with
    | None => (Raise (OSError filename), printed (banner filename n) w)
    | Some source =>
        match ast_parse source with
        | Return _ =>
            (Return tt,
             printed (farewell filename) (printed (banner filename n) w))
        | Raise e => (Raise e, printed (banner filename n) w)
        end
    end.
Proof.
  intros Hn. destruct (files w !! filename) as [source|] eqn:Hfile.
  - destruct (ast_parse source) as [[]|e] eqn:Hparse.
    + rewrite (main_valid _ _ _ _ Hfile Hparse), range_nonpositive by done.
      reflexivity.
    + by eapply main_invalid.
  - by apply main_missing.
Qed.

End Driver.

(** C3.  When the text read from the file does not pass [ast.parse], the
    exception leaves [main] before any request is sent: the request log,
    the write log and the files are those of the start. *)
Theorem initial_syntax_error_aborts `{Libraries}
    (filename source : str) (iterations : Z) (w : world) (e : exn) :
  files w !! filename = Some source →
  ast_parse source = Raise e →
  ∃ w', main filename iterations w = (Raise e, w')
        ∧ requests w' = requests w
        ∧ writes w' = writes w
        ∧ files w' = files w.
Proof.
  intros Hfile Hbad. eexists. split; [by eapply main_invalid|]. done.
Qed.

(** C9.  With zero iterations and a file that parses, [main] returns
    normally, sends no request and performs no write; the files are
    unchanged. *)
Theorem zero_iterations_frame `{Libraries}
    (filename source : str) (w : world) :
  files w !! filename = Some source →
  ast_parse source = Return tt →
  ∃ w', main filename 0 w = (Return tt, w')
        ∧ files w' = files w
        ∧ writes w' = writes w
        ∧ requests w' = requests w.
Proof.
  intros Hfile Hok. rewrite main_no_rounds by done. rewrite Hfile, Hok.
  by eexists.
Qed.

(** C10.  A negative iteration count runs no round, like zero.  The run
    ends with the result of the run with zero iterations and leaves files,
    request log and write log as they were; its console output is that of
    the zero run but for the number in the banner.  The file is still read
    and validated: a text that does not parse raises, and after a text that
    parses [main] returns with the farewell as its last line. *)
Theorem negative_iterations_like_zero `{Libraries}
    (filename : str) (n : Z) (w : world) :
  n < 0 →
  let run_n := main filename n w in
  let run_0 := main filename 0 w in
  run_n.1 = run_0.1
  ∧ files run_n.2 = files w
  ∧ requests run_n.2 = requests w
  ∧ writes run_n.2 = writes w
  ∧ (∃ rest, stdout run_n.2 = stdout w ++ banner filename n :: rest
             ∧ stdout run_0.2 = stdout w ++ banner filename 0 :: rest)
  ∧ (∀ source, files w !! filename = Some source →
       match ast_parse source with
       | Return _ =>
           run_n.1 = Return tt
           ∧ last (stdout run_n.2) = Some (farewell filename)
       | Raise e => run_n.1 = Raise e
       end).
Proof.
  intros Hn run_n run_0. subst run_n run_0.
  rewrite (main_no_rounds filename n) by lia.
  rewrite (main_no_rounds filename 0) by lia.
  destruct (files w !! filename) as [source|];
    [destruct (ast_parse source) as [[]|e] eqn:Hp|]; simpl.
  - repeat split; try done.
    + exists [farewell filename]. by rewrite <- !app_assoc.
    + intros ? [= <-]. rewrite Hp. split; [done|]. apply last_snoc.
  - repeat split; try done.
    + by exists [].
    + intros ? [= <-]. by rewrite Hp.
  - repeat split; try done. by exists [].
Qed.

(** ** The loop *)

Section Loop.
Context `{Libraries}.
Implicit Types (filename source error : str) (w : world).

Lemma for_each_cons {A S} (x : A) (xs : list A) (body : A → S → M S) (s : S) w :
  for_each (x :: xs) body s w
  = match body x s w with
    | (Return s', w') => for_each xs body s' w'
    | (Raise e, w') => (Raise e, w')
    end.
Proof. reflexivity. Qed.

Lemma for_each_app {A S} (xs ys : list A) (body : A → S → M S) (s : S) w :
  for_each (xs ++ ys) body s w
  = match for_each xs body s w with
    | (Return s', w') => for_each ys body s' w'
    | (Raise e, w') => (Raise e, w')
    end.
Proof.
  revert s w. induction xs as [|x xs IH]; intros s w; simpl; [done|].
  unfold bind. destruct (body x s w) as [[s'|e] w']; [apply IH|done].
Qed.

(** [range n] is [range k] followed by the iterations from [k] on. *)
Lemma range_split (k n : Z) :
  0 ≤ k ≤ n →
  range n = range k ++ drop (Z.to_nat k) (range n)
  ∧ length (range k) = Z.to_nat k.
Proof.
  intros Hk. unfold range. rewrite length_fmap, length_seq. split; [|done].
  rewrite <- fmap_drop, <- fmap_app. f_equal.
  rewrite <- (take_drop (Z.to_nat k) (seq 0 (Z.to_nat n))) at 1.
  f_equal. rewrite take_seq. f_equal. lia.
Qed.

(** The request of a round is logged whatever the round's fate. *)
Lemma round_request filename i source error w :
  requests (round filename i (source, error) w).2
  = requests w ++ [create_prompt source error].
Proof.
  destruct (ChatCompletion_create (length (requests w))
              (create_prompt source error)) as [c|e] eqn:Hc.
  - destruct (decide (finish_reason c = lit "length")) as [Hlen|Hlen].
    + by rewrite (round_truncated _ _ _ _ _ _ Hc Hlen).
    + rewrite (round_answered _ _ _ _ _ _ Hc Hlen).
      destruct (ast_parse _) as [[]|[]]; try done.
      destruct (decide _); [|done]. by destruct (torn w !! filename).
  - by rewrite (round_unanswered _ _ _ _ _ _ Hc).
Qed.



End Loop.

(** ** What reaches the disk *)

Section Writes.
Context `{Libraries}.
Implicit Types (filename source error : str) (w : world).






End Writes.

(** C5.  Round trip: the file holds [source], which parses, and the reply to
    the first request is [source] between two fence markers.  Then the
    extractor gives back [source] code point for code point, and one
    iteration of [main] writes [source] to the file, which so keeps its
    content. *)
Theorem fenced_echo_round_trip `{Libraries}
    (filename source : str) (w : world) (c : completion) :
  files w !! filename = Some source →
  ast_parse source = Return tt →
  filename ∉ readonly w →
  ChatCompletion_create (length (requests w)) (create_prompt source [])
    = Return c →
  finish_reason c ≠ lit "length" →
  content c = BACKTICKS ++ source ++ BACKTICKS →
  extract_code (content c) = source
  ∧ ∃ w', main filename 1 w = (Return tt, w')
          ∧ writes w' = writes w ++ [(filename, source)]
          ∧ files w' !! filename = Some source
          ∧ files w' = files w.
Proof.
  intros Hfile Hok Hrw Hc Hlen Hecho.
  assert (Hx : extract_code (content c) = source)
    by (rewrite Hecho; apply extract_code_fenced).
  split; [exact Hx|].
  rewrite (main_valid _ _ _ _ Hfile Hok).
  change (range 1) with [0]. rewrite for_each_cons.
  rewrite (round_answered filename 0 source [] (printed _ w) c Hc Hlen).
  rewrite Hx, Hok. change (readonly (printed _ w)) with (readonly w).
  rewrite decide_False by done. eexists. split; [reflexivity|]. simpl.
  rewrite (insert_id _ _ _ Hfile). done.
Qed.

Section Rounds.
Context `{Libraries}.
Implicit Types (filename source error : str) (w : world).

(** Iteration [k] of [range n] is the number [k]. *)
Lemma range_next (k n : Z) :
  0 ≤ k < n →
  drop (Z.to_nat k) (range n) = k :: drop (S (Z.to_nat k)) (range n).
Proof.
  intros Hk. apply drop_S. unfold range.
  rewrite list_lookup_fmap, lookup_seq_lt by lia. simpl. f_equal. lia.
Qed.

(** The loop of [main] run up to round [k], then one more round. *)
Lemma rounds_then_round filename (k n : Z) st w st_k w_k :
  0 ≤ k < n →
  for_each (range k) (round filename) st w = (Return st_k, w_k) →
  for_each (range n) (round filename) st w
  = match round filename k st_k w_k with
    | (Return st', w') =>
        for_each (drop (S (Z.to_nat k)) (range n)) (round filename) st' w'
    | (Raise e, w') => (Raise e, w')
    end.
Proof.
  intros Hk Hrun. destruct (range_split k n) as [Hsplit _]; [lia|].
  rewrite Hsplit at 1.
  rewrite for_each_app, Hrun, range_next by done. apply for_each_cons.
Qed.

End Rounds.

(** C6.  Rounds [0 .. k-1] of a run of [n > k] iterations went through, and
    the reply to the request of round [k] has finish reason ["length"].
    Then [main] ends with the uncaught [RuntimeError("Too large")]: the
    request was sent once, nothing was printed for it, no hint was
    captured, and files and write log are what they were before the call. *)
Theorem truncated_reply_is_fatal `{Libraries}
    (filename source0 source error : str) (n k : Z) (w w_k : world)
    (c : completion) :
  files w !! filename = Some source0 →
  ast_parse source0 = Return tt →
  0 ≤ k < n →
  for_each (range k) (round filename) (source0, [])
    (printed (banner filename n) w) = (Return (source, error), w_k) →
  ChatCompletion_create (length (requests w_k)) (create_prompt source error)
    = Return c →
  finish_reason c = lit "length" →
  ∃ w', main filename n w = (Raise (RuntimeError (lit "Too large")), w')
        ∧ files w' = files w_k
        ∧ writes w' = writes w_k
        ∧ stdout w' = stdout w_k
        ∧ requests w' = requests w_k ++ [create_prompt source error].
Proof.
  intros Hfile Hok Hk Hrun Hc Hlen.
  rewrite (main_valid _ _ _ _ Hfile Hok).
  rewrite (rounds_then_round _ _ _ _ _ _ _ Hk Hrun).
  rewrite (round_truncated _ _ _ _ _ _ Hc Hlen). by eexists.
Qed.

Section Outcomes.
Context `{Libraries}.
Implicit Types (filename source error : str) (w : world) (c : completion).

(** A round whose candidate raises [SyntaxError]. *)
Lemma round_rejects filename i source error w c msg (n : nat) :
  n = length (requests w) →
  ChatCompletion_create n (create_prompt source error) = Return c →
  finish_reason c ≠ lit "length" →
  ast_parse (extract_code (content c)) = Raise (SyntaxError msg) →
  round filename i (source, error) w
  = (Return (source, msg),
     printed msg (shown (i + 1) source (extract_code (content c))
                    (requested (create_prompt source error) w))).
Proof.
  intros -> Hc Hlen Hbad. by rewrite (round_answered _ _ _ _ _ _ Hc Hlen), Hbad.
Qed.

(** A round whose candidate parses, on a writable file. *)
Lemma round_stores filename i source error w c (n : nat) :
  n = length (requests w) →
  ChatCompletion_create n (create_prompt source error) = Return c →
  finish_reason c ≠ lit "length" →
  ast_parse (extract_code (content c)) = Return tt →
  filename ∉ readonly w →
  round filename i (source, error) w
  = (Return (extract_code (content c), []),
     written filename (extract_code (content c))
       (shown (i + 1) source (extract_code (content c))
          (requested (create_prompt source error) w))).
Proof.
  intros -> Hc Hlen Hok Hrw.
  by rewrite (round_answered _ _ _ _ _ _ Hc Hlen), Hok, decide_False.
Qed.

Lemma rounds_requests_last filename i st w :
  requests (for_each [i] (round filename) st w).2
  = requests w ++ [create_prompt st.1 st.2].
Proof.
  destruct st as [source error]. rewrite for_each_cons.
  pose proof (round_request filename i source error w) as Hr.
  by destruct (round filename i (source, error) w) as [[st'|e] w'].
Qed.

Lemma create_prompt_no_error source : create_prompt source [] = base_prompt source.
Proof. reflexivity. Qed.

Lemma create_prompt_error source error :
  error ≠ [] → create_prompt source error = base_prompt source ++ hint_block error.
Proof. intros He. unfold create_prompt. by destruct error. Qed.

Lemma base_prompt_has_no_hint_block source :
  ¬ has_hint_block source (base_prompt source).
Proof.
  intros [e He]. rewrite <- (app_nil_r (base_prompt source)) in He at 1.
  apply app_inv_head in He. discriminate He.
Qed.

Lemma error_occurs_in_prompt source error :
  error ≠ [] → occurs_in error (create_prompt source error).
Proof.
  intros He. exists (base_prompt source ++ HINT_INTRO), HINT_OUTRO.
  rewrite (create_prompt_error _ _ He). unfold hint_block.
  by rewrite <- !app_assoc.
Qed.

(** Having a hint block is a matter of how the prompt was built, not of
    which text occurs in it: a source that quotes a hint block, as the text
    of the script itself does, carries that text into a prompt built
    without error. *)
Lemma quoted_hint_block_is_no_hint_block source error :
  occurs_in (hint_block error) (create_prompt (source ++ hint_block error) [])
  ∧ ¬ has_hint_block (source ++ hint_block error)
        (create_prompt (source ++ hint_block error) []).
Proof.
  split; [|apply base_prompt_has_no_hint_block].
  exists (INSTRUCTIONS ++ source), PROMPT_TAIL.
  rewrite create_prompt_no_error. unfold base_prompt. by rewrite <- !app_assoc.
Qed.

End Outcomes.

(** C7.  The prompt built from [source] and [error] is the base prompt
    followed by a hint block exactly when [error] is not empty, and the hint
    block then carries [error] verbatim.  In a run of three iterations where
    the first candidate raises [SyntaxError] with a non-empty message [E1]
    and the second candidate parses, the second request holds [E1] inside
    its hint block and the third request is a base prompt without hint
    block. *)
Theorem error_hint_feedback `{Libraries} (filename : str) :
  (∀ source error : str,
     (has_hint_block source (create_prompt source error) ↔ error ≠ [])
     ∧ (error ≠ [] →
        create_prompt source error
        = base_prompt source ++ HINT_INTRO ++ error ++ HINT_OUTRO
        ∧ occurs_in error (create_prompt source error)))
  ∧ (∀ (source E1 : str) (w : world) (c1 c2 : completion),
       files w !! filename = Some source →
       ast_parse source = Return tt →
       filename ∉ readonly w →
       ChatCompletion_create (length (requests w)) (create_prompt source [])
         = Return c1 →
       finish_reason c1 ≠ lit "length" →
       ast_parse (extract_code (content c1)) = Raise (SyntaxError E1) →
       E1 ≠ [] →
       ChatCompletion_create (S (length (requests w))) (create_prompt source E1)
         = Return c2 →
       finish_reason c2 ≠ lit "length" →
       ast_parse (extract_code (content c2)) = Return tt →
       ∃ p2 p3,
         requests (main filename 3 w).2
         = requests w ++ [create_prompt source []; p2; p3]
         ∧ p2 = base_prompt source ++ HINT_INTRO ++ E1 ++ HINT_OUTRO
         ∧ occurs_in E1 p2
         ∧ p3 = base_prompt (extract_code (content c2))
         ∧ ¬ has_hint_block (extract_code (content c2)) p3).
Proof.
  split.
  - intros source error. split; [split|].
    + intros Hhint ->. by apply (base_prompt_has_no_hint_block source).
    + intros He. exists error. by apply create_prompt_error.
    + intros He. split; [by apply create_prompt_error|].
      by apply error_occurs_in_prompt.
  - intros source E1 w c1 c2 Hfile Hok Hrw Hc1 Hlen1 Hbad1 HE1 Hc2 Hlen2 Hok2.
    exists (create_prompt source E1), (create_prompt (extract_code (content c2)) []).
    split; [|split; [by apply create_prompt_error|split;
      [by apply error_occurs_in_prompt
      |split; [done|apply base_prompt_has_no_hint_block]]]].
    rewrite (main_valid _ _ _ _ Hfile Hok).
    change (range 3) with [0; 1; 2]. rewrite for_each_cons.
    rewrite (round_rejects filename 0 source [] (printed (banner filename 3) w)
               c1 E1 _ eq_refl Hc1 Hlen1 Hbad1).
    rewrite for_each_cons.
    match goal with
    | |- context [round filename 1 (source, E1) ?w1] =>
        rewrite (round_stores filename 1 source E1 w1 c2 (S (length (requests w)))
                   ltac:(simpl; rewrite length_app; simpl; lia)
                   Hc2 Hlen2 Hok2 Hrw)
    end.
    match goal with
    | |- context [for_each [2] (round filename) ?st ?w2] =>
        pose proof (rounds_requests_last filename 2 st w2) as Hlast;
        destruct (for_each [2] (round filename) st w2) as [[st'|e] w'];
        simpl in Hlast |- *; rewrite Hlast, <- !app_assoc; reflexivity
    end.
Qed.

(** C8.  [format_source] hands back the empty error after every completion
    attempt.  So the error a round leaves behind is decided by that round's
    candidate alone: empty when it parses, the message of its [SyntaxError]
    otherwise, whatever error the round started with.  Over three rounds in
    a row, of which the first two fail with [msg1] and [msg2], the requests
    are the prompts built from the incoming error, then from [msg1] alone,
    then from [msg2] alone. *)
Theorem error_hint_is_single_shot `{Libraries} (filename : str) :
  (∀ (source error new_source error' : str) (w w' : world),
     format_source source error w = (Return (new_source, error'), w') →
     error' = [])
  ∧ (∀ (i : Z) (source error source' error' : str) (w w' : world),
       round filename i (source, error) w = (Return (source', error'), w') →
       ∃ c, ChatCompletion_create (length (requests w))
              (create_prompt source error) = Return c
            ∧ match ast_parse (extract_code (content c)) with
              | Return _ => source' = extract_code (content c) ∧ error' = []
              | Raise e =>
                  ∃ msg, e = SyntaxError msg ∧ source' = source ∧ error' = msg
              end)
  ∧ (∀ (i0 i1 i2 : Z) (source error0 msg1 msg2 : str) (w : world)
       (c1 c2 : completion),
       ChatCompletion_create (length (requests w))
         (create_prompt source error0) = Return c1 →
       finish_reason c1 ≠ lit "length" →
       ast_parse (extract_code (content c1)) = Raise (SyntaxError msg1) →
       ChatCompletion_create (S (length (requests w)))
         (create_prompt source msg1) = Return c2 →
       finish_reason c2 ≠ lit "length" →
       ast_parse (extract_code (content c2)) = Raise (SyntaxError msg2) →
       requests (for_each [i0; i1; i2] (round filename) (source, error0) w).2
       = requests w ++ [create_prompt source error0;
                        create_prompt source msg1;
                        create_prompt source msg2]).
Proof.
  split; [|split].
  - intros source error new_source error' w w'.
    unfold format_source, call_openai, openai_request, bind.
    destruct (ChatCompletion_create _ _) as [c|e]; [|done].
    destruct (decide _); [done|]. by intros [= _ <- _].
  - intros i source error source' error' w w' Hround.
    destruct (ChatCompletion_create (length (requests w))
                (create_prompt source error)) as [c|e] eqn:Hc.
    + exists c. split; [done|].
      destruct (decide (finish_reason c = lit "length")) as [Hlen|Hlen].
      { by rewrite (round_truncated _ _ _ _ _ _ Hc Hlen) in Hround. }
      rewrite (round_answered _ _ _ _ _ _ Hc Hlen) in Hround.
      destruct (ast_parse (extract_code (content c))) as [[]|[]]; try done.
      * destruct (decide _);
          [by destruct (torn w !! filename)|].
        by injection Hround as <- <- _.
      * injection Hround as <- <- _. by eexists.
    + by rewrite (round_unanswered _ _ _ _ _ _ Hc) in Hround.
  - intros i0 i1 i2 source error0 msg1 msg2 w c1 c2
      Hc1 Hlen1 Hbad1 Hc2 Hlen2 Hbad2.
    rewrite for_each_cons.
    rewrite (round_rejects filename i0 source error0 w c1 msg1 _ eq_refl
               Hc1 Hlen1 Hbad1).
    rewrite for_each_cons.
    match goal with
    | |- context [round filename i1 (source, msg1) ?w1] =>
        rewrite (round_rejects filename i1 source msg1 w1 c2 msg2
                   (S (length (requests w)))
                   ltac:(simpl; rewrite length_app; simpl; lia)
                   Hc2 Hlen2 Hbad2)
    end.
    rewrite rounds_requests_last. simpl. by rewrite <- !app_assoc.
Qed.

(** ** Runs in which every round succeeds or fails on syntax *)

Section Interleavings.
Context `{Libraries}.
Implicit Types (filename source error : str) (w : world).

Lemma parses_Return text : parses text = true ↔ ast_parse text = Return tt.
Proof.
  unfold parses. destruct (ast_parse text) as [[]|e]; split; done.
Qed.

Lemma last_valid_cons initial cand cands :
  last_valid initial (cand :: cands)
  = last_valid (if parses cand then cand else initial) cands.
Proof. reflexivity. Qed.

Lemma last_valid_parses initial cands :
  parses initial = true → parses (last_valid initial cands) = true.
Proof.
  revert initial. induction cands as [|cand cands IH]; intros initial Hi; [done|].
  rewrite last_valid_cons. apply IH. by destruct (parses cand) eqn:Hc.
Qed.

(** The loop only ever appends to the request log. *)
Lemma rounds_requests_grow filename (its : list Z) st w :
  ∃ more, requests (for_each its (round filename) st w).2 = requests w ++ more.
Proof.
  revert st w. induction its as [|i its IH]; intros [source error] w.
  - exists []. by rewrite app_nil_r.
  - rewrite for_each_cons.
    pose proof (round_request filename i source error w) as Hr.
    destruct (round filename i (source, error) w) as [[st'|e] w']; simpl in Hr.
    + destruct (IH st' w') as [more Hmore]. eexists.
      by rewrite Hmore, Hr, <- app_assoc.
    + by eexists.
Qed.

(** [k] rounds, each answered in full and each candidate either parsing or
    raising [SyntaxError]: all [k] rounds run, and the loop ends holding
    the last candidate that parsed, which is also what the file holds. *)
Lemma rounds_run filename (k : nat) :
  ∀ (a : nat) source error w,
    (∀ (i : nat) (p : str), (i < k)%nat →
       ∃ c, ChatCompletion_create (length (requests w) + i) p = Return c
            ∧ finish_reason c ≠ lit "length") →
    (∀ text, ast_parse text = Return tt
             ∨ ∃ msg, ast_parse text = Raise (SyntaxError msg)) →
    filename ∉ readonly w →
    files w !! filename = Some source →
    ∃ prompts error' w',
      let good :=
        last_valid source (candidates (length (requests w)) prompts) in
      for_each (Z.of_nat <$> seq a k) (round filename) (source, error) w
      = (Return (good, error'), w')
      ∧ length prompts = k
      ∧ requests w' = requests w ++ prompts
      ∧ readonly w' = readonly w
      ∧ files w' = <[filename := good]> (files w).
Proof.
  induction k as [|k IH]; intros a source error w Hservice Hparser Hrw Hfile.
  - exists [], error, w. simpl. rewrite app_nil_r, (insert_id _ _ _ Hfile). done.
  - destruct (Hservice 0%nat (create_prompt source error)) as (c & Hc & Hlen);
      [lia|]. rewrite Nat.add_0_r in Hc.
    set (p := create_prompt source error) in *.
    set (cand := extract_code (content c)).
    assert (Hnext : ∀ w1, requests w1 = requests w ++ [p] →
              ∀ (i : nat) (q : str), (i < k)%nat →
                ∃ c', ChatCompletion_create (length (requests w1) + i) q
                        = Return c'
                      ∧ finish_reason c' ≠ lit "length").
    { intros w1 Hw1 i q Hi. rewrite Hw1, length_app. simpl.
      replace (length (requests w) + 1 + i)%nat
        with (length (requests w) + S i)%nat by lia.
      apply Hservice. lia. }
    assert (Hlen1 : ∀ w1, requests w1 = requests w ++ [p] →
              length (requests w1) = S (length (requests w))).
    { intros w1 ->. rewrite length_app. simpl. lia. }
    cbn [seq fmap list_fmap]. rewrite for_each_cons.
    destruct (Hparser cand) as [Hok|[msg Hbad]].
    + rewrite (round_stores filename _ source error w c _ eq_refl Hc Hlen Hok Hrw).
      lazymatch goal with
      | |- context [for_each _ _ _ ?w1] =>
          destruct (IH (S a) cand [] w1) as (ps & e' & w' & Hrun & Hps & Hreq & Hro & Hfs);
            [by apply Hnext|done|done|by apply lookup_insert_eq|];
          rewrite (Hlen1 w1 eq_refl) in Hrun, Hfs
      end.
      exists (p :: ps), e', w'. cbn zeta. cbn [candidates]. fold p. rewrite Hc.
      fold cand. rewrite last_valid_cons.
      rewrite (proj2 (parses_Return cand) Hok).
      split; [exact Hrun|]. split; [by rewrite <- Hps|].
      split; [by rewrite Hreq; simpl; rewrite <- app_assoc|].
      split; [done|]. rewrite Hfs. simpl. by rewrite insert_insert_eq.
    + rewrite (round_rejects filename _ source error w c msg _ eq_refl Hc Hlen Hbad).
      lazymatch goal with
      | |- context [for_each _ _ _ ?w1] =>
          destruct (IH (S a) source msg w1) as (ps & e' & w' & Hrun & Hps & Hreq & Hro & Hfs);
            [by apply Hnext|done|done|done|];
          rewrite (Hlen1 w1 eq_refl) in Hrun, Hfs
      end.
      exists (p :: ps), e', w'. cbn zeta. cbn [candidates]. fold p. rewrite Hc.
      fold cand. rewrite last_valid_cons.
      assert (parses cand = false) as -> by (unfold parses; by rewrite Hbad).
      split; [exact Hrun|]. split; [by rewrite <- Hps|].
      split; [by rewrite Hreq; simpl; rewrite <- app_assoc|].
      split; [done|]. by rewrite Hfs.
Qed.

End Interleavings.


(** C2.  The file exists, parses and is writable; the first [n] requests
    are answered in full; every text either parses or raises [SyntaxError].
    Then [main] runs [n] rounds, one request each, and returns; the file
    ends as the last candidate that parsed (its first content when none
    did).  The same holds midway: after the first [k] rounds of this run
    the loop continues from a state whose source is the last candidate
    among the first [k] that parsed, the file holds that source, and it
    parses. *)
Theorem file_holds_last_valid_candidate `{Libraries}
    (filename source : str) (n : Z) (w : world) :
  files w !! filename = Some source →
  ast_parse source = Return tt →
  filename ∉ readonly w →
  (∀ (i : nat) (p : str), (i < Z.to_nat n)%nat →
     ∃ c, ChatCompletion_create (length (requests w) + i) p = Return c
          ∧ finish_reason c ≠ lit "length") →
  (∀ text, ast_parse text = Return tt
           ∨ ∃ msg, ast_parse text = Raise (SyntaxError msg)) →
  ∃ prompts w',
    main filename n w = (Return tt, w')
    ∧ length prompts = Z.to_nat n
    ∧ requests w' = requests w ++ prompts
    ∧ files w'
      = <[filename := last_valid source
                        (candidates (length (requests w)) prompts)]> (files w)
    ∧ ∀ k : Z, 0 ≤ k ≤ n →
        ∃ source_k error_k w_k,
          for_each (range k) (round filename) (source, [])
            (printed (banner filename n) w)
          = (Return (source_k, error_k), w_k)
          ∧ for_each (range n) (round filename) (source, [])
              (printed (banner filename n) w)
            = for_each (drop (Z.to_nat k) (range n)) (round filename)
                (source_k, error_k) w_k
          ∧ requests w_k = requests w ++ take (Z.to_nat k) prompts
          ∧ source_k
            = last_valid source
                (candidates (length (requests w)) (take (Z.to_nat k) prompts))
          ∧ ast_parse source_k = Return tt
          ∧ files w_k = <[filename := source_k]> (files w).
Proof.
  intros Hfile Hok Hrw Hservice Hparser.
  set (w0 := printed (banner filename n) w).
  destruct (rounds_run filename (Z.to_nat n) 0 source [] w0)
    as (prompts & e' & w' & Hrun & Hlen & Hreq & _ & Hfs); try done.
  fold (range n) in Hrun. simpl in Hrun, Hreq, Hfs.
  exists prompts, (printed (farewell filename) w').
  split; [by rewrite (main_valid _ _ _ _ Hfile Hok); fold w0; rewrite Hrun|].
  split; [done|]. split; [done|]. split; [done|].
  intros k Hk.
  destruct (rounds_run filename (Z.to_nat k) 0 source [] w0)
    as (ps & e_k & w_k & Hrun_k & Hlen_k & Hreq_k & _ & Hfs_k); try done.
  { intros i p Hi. apply Hservice. lia. }
  fold (range k) in Hrun_k. simpl in Hrun_k, Hreq_k, Hfs_k.
  destruct (range_split k n Hk) as [Hsplit _].
  assert (Hcont : for_each (range n) (round filename) (source, []) w0
                  = for_each (drop (Z.to_nat k) (range n)) (round filename)
                      (last_valid source (candidates (length (requests w)) ps), e_k)
                      w_k).
  { rewrite Hsplit at 1. by rewrite for_each_app, Hrun_k. }
  assert (Hps : ps = take (Z.to_nat k) prompts).
  { destruct (rounds_requests_grow filename (drop (Z.to_nat k) (range n))
                (last_valid source (candidates (length (requests w)) ps), e_k)
                w_k) as [more Hmore].
    rewrite <- Hcont, Hrun in Hmore. simpl in Hmore.
    rewrite Hreq, Hreq_k, <- app_assoc in Hmore. apply app_inv_head in Hmore.
    by rewrite Hmore, <- Hlen_k, take_app_length. }
  rewrite <- Hps. eexists _, e_k, w_k.
  split; [exact Hrun_k|]. split; [exact Hcont|]. split; [done|]. split; [done|].
  split; [|done].
  apply parses_Return, last_valid_parses. by apply parses_Return.
Qed.

(** ** The extractor on the fenced example *)

(** C4, as stated, fails: between the fences of the example reply the
    extractor keeps the newline that follows the opening marker, so the
    result is not ['X'] followed by a newline. *)
Lemma fence_stripping_as_stated_fails :
  ¬ (extract_code (lit "```
X
```") = lit "X
"
     ∧ extract_code (lit "X") = lit "X").
Proof. intros [Hfenced _]. vm_compute in Hfenced. discriminate Hfenced. Qed.

(** C4, amended.  The extractor takes the three backticks off each end and
    nothing more: whatever stands between a fence opened by three backticks
    and a newline and closed by a newline and three backticks comes back
    with both newlines; for the example reply that is a newline, ['X'], a
    newline.  A reply ['X'] without markers comes back unchanged. *)
Theorem fence_stripping :
  (∀ X : str,
     extract_code (BACKTICKS ++ lit "
" ++ X ++ lit "
" ++ BACKTICKS)
     = lit "
" ++ X ++ lit "
")
  ∧ extract_code (lit "```
X
```") = lit "
X
"
  ∧ extract_code (lit "X") = lit "X".
Proof.
  split; [|split; reflexivity].
  intros X. rewrite <- (extract_code_fenced (lit "
" ++ X ++ lit "
")) at 1.
  by rewrite <- !app_assoc.
Qed.

(** ** The theorems at concrete runs *)

Lemma stub_disk_writable (filename text : str) :
  filename ∉ readonly (Stub.disk filename text).
Proof. apply not_elem_of_empty. Qed.

(** The table parser of the fixtures raises nothing but [SyntaxError]. *)
Lemma stub_parser_decides (text : str) :
  Stub.parser Stub.rejected text = Return tt
  ∨ ∃ msg, Stub.parser Stub.rejected text = Raise (SyntaxError msg).
Proof.
  unfold Stub.parser, Stub.rejected. simpl.
  destruct (decide (Stub.broken_def = text)); [right; by eexists|].
  simpl. destruct (decide (Stub.broken_if = text)); [right; by eexists|].
  by left.
Qed.

(** A run on a file holding [def f(:]. *)
Lemma initial_syntax_error_aborts_witness :
  let L := Stub.playing [Stub.stop Stub.y_is_2] in
  let w := Stub.disk Stub.a_py Stub.broken_def in
  files w !! Stub.a_py = Some Stub.broken_def
  ∧ ast_parse Stub.broken_def = Raise (SyntaxError Stub.E1)
  ∧ ∃ w', main Stub.a_py 2 w = (Raise (SyntaxError Stub.E1), w')
          ∧ requests w' = requests w
          ∧ writes w' = writes w
          ∧ files w' = files w.
Proof.
  intros L w.
  assert (Hfile : files w !! Stub.a_py = Some Stub.broken_def)
    by (vm_compute; reflexivity).
  assert (Hbad : ast_parse Stub.broken_def = Raise (SyntaxError Stub.E1))
    by (vm_compute; reflexivity).
  split; [exact Hfile|]. split; [exact Hbad|].
  exact (initial_syntax_error_aborts Stub.a_py Stub.broken_def 2 w _ Hfile Hbad).
Defined.

(** Zero iterations on a file holding [x = 1]. *)
Lemma zero_iterations_frame_witness :
  let L := Stub.playing [] in
  let w := Stub.disk Stub.a_py Stub.x_is_1 in
  files w !! Stub.a_py = Some Stub.x_is_1
  ∧ ast_parse Stub.x_is_1 = Return tt
  ∧ ∃ w', main Stub.a_py 0 w = (Return tt, w')
          ∧ files w' = files w
          ∧ writes w' = writes w
          ∧ requests w' = requests w.
Proof.
  intros L w.
  assert (Hfile : files w !! Stub.a_py = Some Stub.x_is_1)
    by (vm_compute; reflexivity).
  assert (Hok : ast_parse Stub.x_is_1 = Return tt) by (vm_compute; reflexivity).
  split; [exact Hfile|]. split; [exact Hok|].
  exact (zero_iterations_frame Stub.a_py Stub.x_is_1 w Hfile Hok).
Defined.

(** Minus three iterations on a file holding [x = 1]. *)
Lemma negative_iterations_like_zero_witness :
  let L := Stub.playing [Stub.stop Stub.y_is_2] in
  let w := Stub.disk Stub.a_py Stub.x_is_1 in
  let run_n := main Stub.a_py (-3) w in
  let run_0 := main Stub.a_py 0 w in
  -3 < 0
  ∧ run_n.1 = run_0.1
  ∧ files run_n.2 = files w
  ∧ requests run_n.2 = requests w
  ∧ writes run_n.2 = writes w
  ∧ (∃ rest, stdout run_n.2 = stdout w ++ banner Stub.a_py (-3) :: rest
             ∧ stdout run_0.2 = stdout w ++ banner Stub.a_py 0 :: rest)
  ∧ (∀ source, files w !! Stub.a_py = Some source →
       match ast_parse source with
       | Return _ =>
           run_n.1 = Return tt
           ∧ last (stdout run_n.2) = Some (farewell Stub.a_py)
       | Raise e => run_n.1 = Raise e
       end).
Proof.
  intros L w run_n run_0.
  assert (Hn : -3 < 0) by lia.
  split; [exact Hn|].
  exact (negative_iterations_like_zero Stub.a_py (-3) w Hn).
Defined.

(** The service echoes [x = 1] between fences. *)
Lemma fenced_echo_round_trip_witness :
  let c := Completion (lit "stop") (Stub.fenced Stub.x_is_1) in
  let L := Stub.playing [Return c] in
  let w := Stub.disk Stub.a_py Stub.x_is_1 in
  files w !! Stub.a_py = Some Stub.x_is_1
  ∧ ast_parse Stub.x_is_1 = Return tt
  ∧ ChatCompletion_create (length (requests w)) (create_prompt Stub.x_is_1 [])
    = Return c
  ∧ extract_code (content c) = Stub.x_is_1
  ∧ ∃ w', main Stub.a_py 1 w = (Return tt, w')
          ∧ writes w' = writes w ++ [(Stub.a_py, Stub.x_is_1)]
          ∧ files w' !! Stub.a_py = Some Stub.x_is_1
          ∧ files w' = files w.
Proof.
  intros c L w.
  assert (Hfile : files w !! Stub.a_py = Some Stub.x_is_1)
    by (vm_compute; reflexivity).
  assert (Hok : ast_parse Stub.x_is_1 = Return tt) by (vm_compute; reflexivity).
  assert (Hc : ChatCompletion_create (length (requests w))
                 (create_prompt Stub.x_is_1 []) = Return c) by reflexivity.
  assert (Hlen : finish_reason c ≠ lit "length") by (vm_compute; discriminate).
  split; [exact Hfile|]. split; [exact Hok|]. split; [exact Hc|].
  exact (fenced_echo_round_trip Stub.a_py Stub.x_is_1 w c Hfile Hok
           (stub_disk_writable _ _) Hc Hlen eq_refl).
Defined.

(** The first reply is stored, the second is cut off. *)
Lemma truncated_reply_is_fatal_witness :
  let c := Completion (lit "length") (Stub.fenced Stub.x_is_1) in
  let L := Stub.playing [Stub.stop (Stub.fenced Stub.y_is_2); Return c] in
  let w := Stub.disk Stub.a_py Stub.x_is_1 in
  let after_one :=
    for_each (range 1) (round Stub.a_py) (Stub.x_is_1, [])
      (printed (banner Stub.a_py 2) w) in
  after_one.1 = Return (Stub.y_is_2, [])
  ∧ files after_one.2 !! Stub.a_py = Some Stub.y_is_2
  ∧ ∃ w', main Stub.a_py 2 w = (Raise (RuntimeError (lit "Too large")), w')
          ∧ files w' = files after_one.2
          ∧ writes w' = writes after_one.2
          ∧ stdout w' = stdout after_one.2
          ∧ requests w' = requests after_one.2 ++ [create_prompt Stub.y_is_2 []].
Proof.
  intros c L w after_one.
  assert (Hfile : files w !! Stub.a_py = Some Stub.x_is_1)
    by (vm_compute; reflexivity).
  assert (Hok : ast_parse Stub.x_is_1 = Return tt) by (vm_compute; reflexivity).
  assert (Hrun : after_one = (Return (Stub.y_is_2, []), after_one.2))
    by (vm_compute; reflexivity).
  assert (Hc : ChatCompletion_create (length (requests after_one.2))
                 (create_prompt Stub.y_is_2 []) = Return c)
    by (vm_compute; reflexivity).
  split; [vm_compute; reflexivity|]. split; [vm_compute; reflexivity|].
  exact (truncated_reply_is_fatal Stub.a_py Stub.x_is_1 Stub.y_is_2 [] 2 1 w
           after_one.2 c Hfile Hok ltac:(lia) Hrun Hc eq_refl).
Defined.

(** Three iterations: a broken candidate, a good one, any third reply. *)
Lemma error_hint_feedback_witness :
  let c1 := Completion (lit "stop") (Stub.fenced Stub.broken_def) in
  let c2 := Completion (lit "stop") (Stub.fenced Stub.y_is_2) in
  let L := Stub.playing [Return c1; Return c2; Stub.stop Stub.x_is_1] in
  let w := Stub.disk Stub.a_py Stub.x_is_1 in
  ast_parse (extract_code (content c1)) = Raise (SyntaxError Stub.E1)
  ∧ ast_parse (extract_code (content c2)) = Return tt
  ∧ ∃ p2 p3,
      requests (main Stub.a_py 3 w).2
      = requests w ++ [create_prompt Stub.x_is_1 []; p2; p3]
      ∧ p2 = base_prompt Stub.x_is_1 ++ HINT_INTRO ++ Stub.E1 ++ HINT_OUTRO
      ∧ occurs_in Stub.E1 p2
      ∧ p3 = base_prompt (extract_code (content c2))
      ∧ ¬ has_hint_block (extract_code (content c2)) p3.
Proof.
  intros c1 c2 L w.
  assert (Hbad1 : ast_parse (extract_code (content c1))
                  = Raise (SyntaxError Stub.E1)) by (vm_compute; reflexivity).
  assert (Hok2 : ast_parse (extract_code (content c2)) = Return tt)
    by (vm_compute; reflexivity).
  split; [exact Hbad1|]. split; [exact Hok2|].
  refine (proj2 (error_hint_feedback Stub.a_py) Stub.x_is_1 Stub.E1 w c1 c2
            _ _ (stub_disk_writable _ _) _ _ Hbad1 _ _ _ Hok2);
    first [by vm_compute | vm_compute; discriminate].
Defined.

(** Three rounds in a row, the first two with broken candidates. *)
Lemma error_hint_is_single_shot_witness :
  let c1 := Completion (lit "stop") (Stub.fenced Stub.broken_def) in
  let c2 := Completion (lit "stop") (Stub.fenced Stub.broken_if) in
  let L := Stub.playing [Return c1; Return c2; Stub.stop Stub.y_is_2] in
  let w := Stub.disk Stub.a_py Stub.x_is_1 in
  ast_parse (extract_code (content c1)) = Raise (SyntaxError Stub.E1)
  ∧ ast_parse (extract_code (content c2)) = Raise (SyntaxError Stub.E2)
  ∧ requests (for_each [0; 1; 2] (round Stub.a_py) (Stub.x_is_1, []) w).2
    = requests w ++ [create_prompt Stub.x_is_1 [];
                     create_prompt Stub.x_is_1 Stub.E1;
                     create_prompt Stub.x_is_1 Stub.E2].
Proof.
  intros c1 c2 L w.
  assert (Hbad1 : ast_parse (extract_code (content c1))
                  = Raise (SyntaxError Stub.E1)) by (vm_compute; reflexivity).
  assert (Hbad2 : ast_parse (extract_code (content c2))
                  = Raise (SyntaxError Stub.E2)) by (vm_compute; reflexivity).
  split; [exact Hbad1|]. split; [exact Hbad2|].
  refine (proj2 (proj2 (error_hint_is_single_shot Stub.a_py)) 0 1 2
            Stub.x_is_1 [] Stub.E1 Stub.E2 w c1 c2 _ _ Hbad1 _ _ Hbad2);
    first [by vm_compute | vm_compute; discriminate].
Defined.



(** Three iterations: stored, rejected, rejected. *)
Lemma file_holds_last_valid_candidate_witness :
  let L := Stub.playing [Stub.stop (Stub.fenced Stub.y_is_2);
                         Stub.stop (Stub.fenced Stub.broken_def);
                         Stub.stop (Stub.fenced Stub.broken_if)] in
  let w := Stub.disk Stub.a_py Stub.x_is_1 in
  (∀ text, ast_parse text = Return tt
           ∨ ∃ msg, ast_parse text = Raise (SyntaxError msg))
  ∧ ∃ prompts w',
      main Stub.a_py 3 w = (Return tt, w')
      ∧ length prompts = Z.to_nat 3
      ∧ requests w' = requests w ++ prompts
      ∧ files w'
        = <[Stub.a_py := last_valid Stub.x_is_1
                           (candidates (length (requests w)) prompts)]> (files w)
      ∧ ∀ k : Z, 0 ≤ k ≤ 3 →
          ∃ source_k error_k w_k,
            for_each (range k) (round Stub.a_py) (Stub.x_is_1, [])
              (printed (banner Stub.a_py 3) w)
            = (Return (source_k, error_k), w_k)
            ∧ for_each (range 3) (round Stub.a_py) (Stub.x_is_1, [])
                (printed (banner Stub.a_py 3) w)
              = for_each (drop (Z.to_nat k) (range 3)) (round Stub.a_py)
                  (source_k, error_k) w_k
            ∧ requests w_k = requests w ++ take (Z.to_nat k) prompts
            ∧ source_k
              = last_valid Stub.x_is_1
                  (candidates (length (requests w)) (take (Z.to_nat k) prompts))
            ∧ ast_parse source_k = Return tt
            ∧ files w_k = <[Stub.a_py := source_k]> (files w).
Proof.
  intros L w.
  assert (Hservice : ∀ (i : nat) (p : str), (i < Z.to_nat 3)%nat →
            ∃ c, ChatCompletion_create (length (requests w) + i) p = Return c
                 ∧ finish_reason c ≠ lit "length").
  { intros [|[|[|i]]] p Hi; [| | |exfalso; simpl in Hi; lia];
      (eexists; split; [reflexivity|vm_compute; discriminate]). }
  split; [exact stub_parser_decides|].
  refine (file_holds_last_valid_candidate Stub.a_py Stub.x_is_1 3 w
            _ _ (stub_disk_writable _ _) Hservice stub_parser_decides);
    by vm_compute.
Defined.

(** * Further properties of the script *)

(** ** The extractor on arbitrary replies *)

Section ExtractorAtLarge.
Implicit Types s ws body : str.

(** All code points of [ws] are white space. *)
Local Abbreviation blank ws := (Forall (λ c, isspace c = true) ws).

Lemma lstrip_blank_app ws s : blank ws → lstrip (ws ++ s) = lstrip s.
Proof. induction 1 as [|c ws Hc _ IH]; simpl; [done|]. by rewrite Hc. Qed.

Lemma lstrip_blank ws : blank ws → lstrip ws = [].
Proof.
  intros Hws. rewrite <- (app_nil_r ws). by rewrite lstrip_blank_app.
Qed.

Lemma rstrip_app_blank s ws : blank ws → rstrip (s ++ ws) = rstrip s.
Proof.
  intros Hws. unfold rstrip. rewrite reverse_app, lstrip_blank_app; [done|].
  by apply Forall_reverse.
Qed.

Lemma strip_blank ws : blank ws → strip ws = [].
Proof. intros Hws. unfold strip. by rewrite lstrip_blank. Qed.

Lemma lstrip_fenced s :
  lstrip (BACKTICKS ++ s) = BACKTICKS ++ s.
Proof. reflexivity. Qed.

Lemma rstrip_fenced s :
  rstrip (s ++ BACKTICKS) = s ++ BACKTICKS.
Proof.
  rewrite BACKTICKS_unfold.
  replace (s ++ [96; 96; 96]%N) with ((s ++ [96; 96]%N) ++ [96%N])
    by (by rewrite <- app_assoc).
  by apply rstrip_last.
Qed.

(** What [strip] leaves stands in the text it was given. *)
Lemma lstrip_suffix s : ∃ ws, s = ws ++ lstrip s.
Proof.
  induction s as [|c s [ws IH]]; [by exists []|]. simpl.
  destruct (isspace c); [|by exists []].
  exists (c :: ws). simpl. by rewrite <- IH.
Qed.

Lemma rstrip_prefix s : ∃ ws, s = rstrip s ++ ws.
Proof.
  unfold rstrip. destruct (lstrip_suffix (reverse s)) as [ws Hws].
  exists (reverse ws). rewrite <- reverse_app, <- Hws.
  by rewrite reverse_involutive.
Qed.

Lemma occurs_in_refl s : occurs_in s s.
Proof. exists [], []. by rewrite app_nil_r. Qed.

Lemma occurs_in_trans s1 s2 s3 :
  occurs_in s1 s2 → occurs_in s2 s3 → occurs_in s1 s3.
Proof.
  intros (a & b & ->) (c & d & ->). exists (c ++ a), (b ++ d).
  by rewrite <- !app_assoc.
Qed.

Lemma occurs_in_length s1 s2 :
  occurs_in s1 s2 → (length s1 ≤ length s2)%nat.
Proof. intros (a & b & ->). rewrite !length_app. lia. Qed.

Lemma strip_occurs_in s : occurs_in (strip s) s.
Proof.
  unfold strip. destruct (lstrip_suffix s) as [ws1 H1].
  destruct (rstrip_prefix (lstrip s)) as [ws2 H2].
  exists ws1, ws2. by rewrite <- H2.
Qed.

Lemma slice_from_occurs_in n s : occurs_in (slice_from n s) s.
Proof.
  exists (take n s), []. unfold slice_from. by rewrite app_nil_r, take_drop.
Qed.

Lemma slice_to_last_occurs_in n s : occurs_in (slice_to_last n s) s.
Proof.
  exists [], (drop (length s - n) s). unfold slice_to_last. simpl.
  by rewrite take_drop.
Qed.

End ExtractorAtLarge.

(** X1.  A reply whose fenced block is surrounded by white space, as a reply
    ending in a newline is, gives exactly the text between the outermost
    markers: the white space goes, the interior stays as it is, white space
    and further markers included. *)
Theorem extract_code_padded_fence (before body after : str) :
  Forall (λ c, isspace c = true) before →
  Forall (λ c, isspace c = true) after →
  extract_code (before ++ BACKTICKS ++ body ++ BACKTICKS ++ after) = body.
Proof.
  intros Hb Ha.
  assert (Hstrip : strip (before ++ BACKTICKS ++ body ++ BACKTICKS ++ after)
                   = BACKTICKS ++ body ++ BACKTICKS).
  { unfold strip. rewrite (lstrip_blank_app _ _ Hb), lstrip_fenced.
    replace (BACKTICKS ++ body ++ BACKTICKS ++ after)
      with ((BACKTICKS ++ body ++ BACKTICKS) ++ after)
      by (by rewrite <- !app_assoc).
    rewrite (rstrip_app_blank _ _ Ha).
    replace (BACKTICKS ++ body ++ BACKTICKS)
      with ((BACKTICKS ++ body) ++ BACKTICKS) by (by rewrite <- !app_assoc).
    apply rstrip_fenced. }
  unfold extract_code. rewrite Hstrip, startswith_app, slice_from_app.
  by rewrite endswith_app, slice_to_last_app.
Qed.

Lemma extract_code_padded_fence_witness :
  Forall (λ c, isspace c = true) (lit "
  ")
  ∧ Forall (λ c, isspace c = true) (lit "
")
  ∧ extract_code (lit "
  " ++ BACKTICKS ++ lit " x = 1
" ++ BACKTICKS ++ lit "
") = lit " x = 1
".
Proof.
  assert (Hb : Forall (λ c, isspace c = true) (lit "
  ")) by (repeat constructor).
  assert (Ha : Forall (λ c, isspace c = true) (lit "
")) by (repeat constructor).
  split; [exact Hb|]. split; [exact Ha|].
  exact (extract_code_padded_fence _ _ _ Hb Ha).
Defined.

(** X2.  The candidate is a contiguous piece of the reply: the extractor
    only cuts at the two ends, it never inserts or rewrites text, and the
    candidate is never longer than the reply. *)
Theorem extract_code_is_a_piece_of_the_reply (response : str) :
  occurs_in (extract_code response) response
  ∧ (length (extract_code response) ≤ length response)%nat.
Proof.
  assert (Hin : occurs_in (extract_code response) response).
  { unfold extract_code.
    eapply occurs_in_trans; [|apply strip_occurs_in].
    destruct (startswith (strip response) BACKTICKS).
    - eapply occurs_in_trans; [|apply slice_from_occurs_in].
      destruct (endswith _ BACKTICKS);
        [apply slice_to_last_occurs_in|apply occurs_in_refl].
    - destruct (endswith _ BACKTICKS);
        [apply slice_to_last_occurs_in|apply occurs_in_refl]. }
  split; [exact Hin|by apply occurs_in_length].
Qed.

(** X3.  A reply of white space only, the empty reply included, gives the
    empty candidate. *)
Theorem extract_code_blank_reply (response : str) :
  Forall (λ c, isspace c = true) response →
  extract_code response = [].
Proof.
  intros Hblank. unfold extract_code. by rewrite (strip_blank _ Hblank).
Qed.

Lemma extract_code_blank_reply_witness :
  Forall (λ c, isspace c = true) (lit " 
 ")
  ∧ extract_code (lit " 
 ") = [].
Proof.
  assert (Hblank : Forall (λ c, isspace c = true) (lit " 
 ")) by (repeat constructor).
  split; [exact Hblank|]. exact (extract_code_blank_reply _ Hblank).
Defined.

(** ** The prompt as an encoding of source and error *)

(** X4.  The prompt determines the error when the source is known and the
    source when the error is known, and a prompt built with an error is
    never the prompt some source gives without error: it ends in five
    blanks, a prompt without hint in a newline and four. *)
Theorem create_prompt_separates :
  (∀ source error1 error2 : str,
     create_prompt source error1 = create_prompt source error2 →
     error1 = error2)
  ∧ (∀ source1 source2 error : str,
       create_prompt source1 error = create_prompt source2 error →
       source1 = source2)
  ∧ (∀ source1 source2 error : str,
       create_prompt source1 error = create_prompt source2 [] →
       error = []).
Proof.
  split; [|split].
  - intros source e1 e2. unfold create_prompt.
    destruct e1 as [|a e1], e2 as [|b e2]; simpl truthy; cbv iota; intros Heq.
    + done.
    + rewrite <- (app_nil_r (base_prompt source)) in Heq at 1.
      apply app_inv_head in Heq. discriminate Heq.
    + rewrite <- (app_nil_r (base_prompt source)) in Heq at 2.
      apply app_inv_head in Heq. discriminate Heq.
    + apply app_inv_head in Heq. unfold hint_block in Heq.
      apply app_inv_head in Heq. by apply app_inv_tail in Heq.
  - intros s1 s2 error. unfold create_prompt, base_prompt.
    destruct (truthy error); intros Heq.
    + rewrite <- !app_assoc in Heq. apply app_inv_head in Heq.
      rewrite !app_assoc in Heq. by do 2 apply app_inv_tail in Heq.
    + apply app_inv_head in Heq. by apply app_inv_tail in Heq.
  - intros s1 s2 error Heq. destruct error as [|a error]; [done|exfalso].
    rewrite create_prompt_no_error, create_prompt_error in Heq by done.
    unfold base_prompt at 2 in Heq. unfold hint_block in Heq.
    change HINT_OUTRO with ([10; 32; 32; 32]%N ++ [32; 32; 32; 32; 32]%N) in Heq.
    rewrite !app_assoc in Heq.
    apply app_inj_2 in Heq as [_ Heq]; [discriminate Heq|reflexivity].
Qed.

Lemma create_prompt_separates_witness :
  create_prompt Stub.x_is_1 Stub.E1 = create_prompt Stub.x_is_1 Stub.E1
  ∧ Stub.E1 = Stub.E1.
Proof.
  assert (Heq : create_prompt Stub.x_is_1 Stub.E1
                = create_prompt Stub.x_is_1 Stub.E1) by reflexivity.
  split; [exact Heq|].
  exact (proj1 create_prompt_separates Stub.x_is_1 Stub.E1 Stub.E1 Heq).
Defined.

(** X5.  The pair of source and error is not always recoverable from the
    prompt: the texts are pasted in without delimiter or escaping, so an
    error that quotes the end of a prompt and the opening of a hint block
    reads like a longer source with a shorter error. *)
Theorem create_prompt_is_ambiguous (source quoted error : str) :
  error ≠ [] →
  create_prompt source (quoted ++ PROMPT_TAIL ++ HINT_INTRO ++ error)
  = create_prompt (source ++ PROMPT_TAIL ++ HINT_INTRO ++ quoted) error
  ∧ source ≠ source ++ PROMPT_TAIL ++ HINT_INTRO ++ quoted.
Proof.
  intros He. split.
  - rewrite !create_prompt_error; [|done|by destruct quoted].
    unfold base_prompt, hint_block. by rewrite <- !app_assoc.
  - intros Heq. apply (f_equal length) in Heq. rewrite !length_app in Heq.
    change (length PROMPT_TAIL) with 5%nat in Heq. lia.
Qed.

Lemma create_prompt_is_ambiguous_witness :
  Stub.E1 ≠ []
  ∧ create_prompt Stub.x_is_1 (Stub.E2 ++ PROMPT_TAIL ++ HINT_INTRO ++ Stub.E1)
    = create_prompt (Stub.x_is_1 ++ PROMPT_TAIL ++ HINT_INTRO ++ Stub.E2) Stub.E1
  ∧ Stub.x_is_1 ≠ Stub.x_is_1 ++ PROMPT_TAIL ++ HINT_INTRO ++ Stub.E2.
Proof.
  assert (He : Stub.E1 ≠ []) by discriminate.
  split; [exact He|].
  exact (create_prompt_is_ambiguous Stub.x_is_1 Stub.E2 Stub.E1 He).
Defined.

(** ** Runs that end in an exception *)

Section Fatal.
Context `{Libraries}.
Implicit Types (filename source error : str) (w : world).

(** An exception that leaves round [k] leaves [main]. *)
Lemma main_round_raises filename (n k : Z) w source0 st_k w_k e w_e :
  files w !! filename = Some source0 →
  ast_parse source0 = Return tt →
  0 ≤ k < n →
  for_each (range k) (round filename) (source0, [])
    (printed (banner filename n) w) = (Return st_k, w_k) →
  round filename k st_k w_k = (Raise e, w_e) →
  main filename n w = (Raise e, w_e).
Proof.
  intros Hfile Hok Hk Hrun Hround.
  rewrite (main_valid _ _ _ _ Hfile Hok).
  by rewrite (rounds_then_round _ _ _ _ _ _ _ Hk Hrun), Hround.
Qed.

End Fatal.

(** X6.  Rounds [0 .. k-1] of a run of [n > k] iterations went through and
    the service raises on the request of round [k] (no connection, no valid
    credential).  The exception, whatever its class, leaves [main]: one
    request was sent, nothing printed, nothing written. *)
Theorem service_failure_is_fatal `{Libraries}
    (filename source0 source error : str) (n k : Z) (w w_k : world) (e : exn) :
  files w !! filename = Some source0 →
  ast_parse source0 = Return tt →
  0 ≤ k < n →
  for_each (range k) (round filename) (source0, [])
    (printed (banner filename n) w) = (Return (source, error), w_k) →
  ChatCompletion_create (length (requests w_k)) (create_prompt source error)
    = Raise e →
  ∃ w', main filename n w = (Raise e, w')
        ∧ files w' = files w_k
        ∧ writes w' = writes w_k
        ∧ stdout w' = stdout w_k
        ∧ requests w' = requests w_k ++ [create_prompt source error].
Proof.
  intros Hfile Hok Hk Hrun Hc.
  rewrite (main_round_raises _ _ _ _ _ _ _ _ _ Hfile Hok Hk Hrun
             (round_unanswered _ _ _ _ _ _ Hc)).
  by eexists.
Qed.

Lemma service_failure_is_fatal_witness :
  let L := Stub.playing [Stub.stop (Stub.fenced Stub.y_is_2)] in
  let w := Stub.disk Stub.a_py Stub.x_is_1 in
  let after_one :=
    for_each (range 1) (round Stub.a_py) (Stub.x_is_1, [])
      (printed (banner Stub.a_py 3) w) in
  after_one.1 = Return (Stub.y_is_2, [])
  ∧ ∃ w', main Stub.a_py 3 w
          = (Raise (OtherError (lit "connection refused")), w')
          ∧ files w' = files after_one.2
          ∧ writes w' = writes after_one.2
          ∧ stdout w' = stdout after_one.2
          ∧ requests w' = requests after_one.2 ++ [create_prompt Stub.y_is_2 []].
Proof.
  intros L w after_one.
  assert (Hfile : files w !! Stub.a_py = Some Stub.x_is_1)
    by (vm_compute; reflexivity).
  assert (Hok : ast_parse Stub.x_is_1 = Return tt) by (vm_compute; reflexivity).
  assert (Hrun : after_one = (Return (Stub.y_is_2, []), after_one.2))
    by (vm_compute; reflexivity).
  assert (Hc : ChatCompletion_create (length (requests after_one.2))
                 (create_prompt Stub.y_is_2 [])
               = Raise (OtherError (lit "connection refused")))
    by (vm_compute; reflexivity).
  split; [vm_compute; reflexivity|].
  exact (service_failure_is_fatal Stub.a_py Stub.x_is_1 Stub.y_is_2 [] 3 1 w
           after_one.2 _ Hfile Hok ltac:(lia) Hrun Hc).
Defined.

(** X7.  Only [SyntaxError] is turned into a hint.  When [ast.parse] raises
    anything else on the candidate of round [k], the exception leaves
    [main]: the diff of the round has been printed, the candidate is not
    written and no hint is captured. *)
Theorem other_parser_exception_is_fatal `{Libraries}
    (filename source0 source error : str) (n k : Z) (w w_k : world)
    (c : completion) (e : exn) :
  files w !! filename = Some source0 →
  ast_parse source0 = Return tt →
  0 ≤ k < n →
  for_each (range k) (round filename) (source0, [])
    (printed (banner filename n) w) = (Return (source, error), w_k) →
  ChatCompletion_create (length (requests w_k)) (create_prompt source error)
    = Return c →
  finish_reason c ≠ lit "length" →
  ast_parse (extract_code (content c)) = Raise e →
  (∀ msg, e ≠ SyntaxError msg) →
  ∃ w', main filename n w = (Raise e, w')
        ∧ files w' = files w_k
        ∧ writes w' = writes w_k
        ∧ stdout w'
          = stdout (shown (k + 1) source (extract_code (content c)) w_k)
        ∧ requests w' = requests w_k ++ [create_prompt source error].
Proof.
  intros Hfile Hok Hk Hrun Hc Hlen Hbad Hother.
  assert (Hround : round filename k (source, error) w_k
                   = (Raise e, shown (k + 1) source (extract_code (content c))
                                 (requested (create_prompt source error) w_k))).
  { rewrite (round_answered _ _ _ _ _ _ Hc Hlen), Hbad.
    destruct e; try done. by destruct (Hother msg). }
  rewrite (main_round_raises _ _ _ _ _ _ _ _ _ Hfile Hok Hk Hrun Hround).
  by eexists.
Qed.

Lemma other_parser_exception_is_fatal_witness :
  let nul : str := [0%N] in
  let c := Completion (lit "stop") (Stub.fenced nul) in
  let e := OtherError (lit "source code string cannot contain null bytes") in
  let L := Stub.choking_on nul [Return c] in
  let w := Stub.disk Stub.a_py Stub.x_is_1 in
  let w0 := printed (banner Stub.a_py 1) w in
  ast_parse (extract_code (content c)) = Raise e
  ∧ ∃ w', main Stub.a_py 1 w = (Raise e, w')
          ∧ files w' = files w0
          ∧ writes w' = writes w0
          ∧ stdout w' = stdout (shown (0 + 1) Stub.x_is_1
                                  (extract_code (content c)) w0)
          ∧ requests w' = requests w0 ++ [create_prompt Stub.x_is_1 []].
Proof.
  intros nul c e L w w0.
  assert (Hfile : files w !! Stub.a_py = Some Stub.x_is_1)
    by (vm_compute; reflexivity).
  assert (Hok : ast_parse Stub.x_is_1 = Return tt) by (vm_compute; reflexivity).
  assert (Hbad : ast_parse (extract_code (content c)) = Raise e)
    by (vm_compute; reflexivity).
  assert (Hc : ChatCompletion_create (length (requests w0))
                 (create_prompt Stub.x_is_1 []) = Return c) by reflexivity.
  assert (Hlen : finish_reason c ≠ lit "length") by (vm_compute; discriminate).
  assert (Hother : ∀ msg, e ≠ SyntaxError msg) by discriminate.
  split; [exact Hbad|].
  exact (other_parser_exception_is_fatal Stub.a_py Stub.x_is_1 Stub.x_is_1 []
           1 0 w w0 c e Hfile Hok ltac:(lia) eq_refl Hc Hlen Hbad Hother).
Defined.

(** X8.  A target that can be read but not written: the first candidate that
    parses makes [write_file] raise inside the [try] statement, whose
    handler does not catch it.  The run ends there, with the file as it was
    when [open] raised, and with the first code points of the candidate
    when the write broke off after [open]. *)
Theorem unwritable_target_is_fatal `{Libraries}
    (filename source0 source error : str) (n k : Z) (w w_k : world)
    (c : completion) :
  files w !! filename = Some source0 →
  ast_parse source0 = Return tt →
  0 ≤ k < n →
  for_each (range k) (round filename) (source0, [])
    (printed (banner filename n) w) = (Return (source, error), w_k) →
  ChatCompletion_create (length (requests w_k)) (create_prompt source error)
    = Return c →
  finish_reason c ≠ lit "length" →
  ast_parse (extract_code (content c)) = Return tt →
  filename ∈ readonly w_k →
  ∃ w', main filename n w = (Raise (OSError filename), w')
        ∧ files w'
          = match torn w_k !! filename with
            | None => files w_k
            | Some j =>
                <[filename := take j (extract_code (content c))]> (files w_k)
            end
        ∧ writes w' = writes w_k
        ∧ requests w' = requests w_k ++ [create_prompt source error].
Proof.
  intros Hfile Hok Hk Hrun Hc Hlen Hgood Hro.
  pose proof (round_answered filename k source error w_k c Hc Hlen) as Hround.
  cbv zeta in Hround. rewrite Hgood, decide_True in Hround by done.
  destruct (torn w_k !! filename) as [j|];
    rewrite (main_round_raises _ _ _ _ _ _ _ _ _ Hfile Hok Hk Hrun Hround);
    by eexists.
Qed.

Lemma unwritable_target_is_fatal_witness :
  let c := Completion (lit "stop") (Stub.fenced Stub.y_is_2) in
  let L := Stub.playing [Return c] in
  let w := Stub.locked_disk Stub.a_py Stub.x_is_1 in
  let w0 := printed (banner Stub.a_py 2) w in
  Stub.a_py ∈ readonly w0
  ∧ ∃ w', main Stub.a_py 2 w = (Raise (OSError Stub.a_py), w')
          ∧ files w' = files w0
          ∧ writes w' = writes w0
          ∧ requests w' = requests w0 ++ [create_prompt Stub.x_is_1 []].
Proof.
  intros c L w w0.
  assert (Hfile : files w !! Stub.a_py = Some Stub.x_is_1)
    by (vm_compute; reflexivity).
  assert (Hok : ast_parse Stub.x_is_1 = Return tt) by (vm_compute; reflexivity).
  assert (Hgood : ast_parse (extract_code (content c)) = Return tt)
    by (vm_compute; reflexivity).
  assert (Hc : ChatCompletion_create (length (requests w0))
                 (create_prompt Stub.x_is_1 []) = Return c) by reflexivity.
  assert (Hlen : finish_reason c ≠ lit "length") by (vm_compute; discriminate).
  assert (Hro : Stub.a_py ∈ readonly w0)
    by (unfold w0, w, Stub.locked_disk; simpl; set_solver).
  split; [exact Hro|].
  exact (unwritable_target_is_fatal Stub.a_py Stub.x_is_1 Stub.x_is_1 []
           2 0 w w0 c Hfile Hok ltac:(lia) eq_refl Hc Hlen Hgood Hro).
Defined.

(** X9.  A file that does not exist: [main] prints its banner, [read_file]
    raises, and the run is over before validation, without request and
    without write. *)
Theorem missing_file_aborts `{Libraries}
    (filename : str) (iterations : Z) (w : world) :
  files w !! filename = None →
  ∃ w', main filename iterations w = (Raise (OSError filename), w')
        ∧ stdout w' = stdout w ++ [banner filename iterations]
        ∧ requests w' = requests w
        ∧ writes w' = writes w
        ∧ files w' = files w.
Proof.
  intros Hfile. rewrite (main_missing _ _ _ Hfile). by eexists.
Qed.

Lemma missing_file_aborts_witness :
  let L := Stub.playing [Stub.stop Stub.y_is_2] in
  let w := Stub.disk Stub.a_py Stub.x_is_1 in
  files w !! Stub.b_py = None
  ∧ ∃ w', main Stub.b_py 2 w = (Raise (OSError Stub.b_py), w')
          ∧ stdout w' = stdout w ++ [banner Stub.b_py 2]
          ∧ requests w' = requests w
          ∧ writes w' = writes w
          ∧ files w' = files w.
Proof.
  intros L w.
  assert (Hfile : files w !! Stub.b_py = None) by (vm_compute; reflexivity).
  split; [exact Hfile|].
  exact (missing_file_aborts Stub.b_py 2 w Hfile).
Defined.

(** ** What every run keeps, whatever the libraries do *)

Section EveryRun.
Context `{Libraries}.
Implicit Types (filename source error : str) (w : world).

(** A round performs at most one write. *)
Lemma round_writes_at_most_one filename i source error w :
  ∃ stored, writes (round filename i (source, error) w).2 = writes w ++ stored
            ∧ (length stored ≤ 1)%nat.
Proof.
  destruct (ChatCompletion_create (length (requests w))
              (create_prompt source error)) as [c|e] eqn:Hc.
  - destruct (decide (finish_reason c = lit "length")) as [Hlen|Hlen].
    + rewrite (round_truncated _ _ _ _ _ _ Hc Hlen). exists [].
      by rewrite app_nil_r; simpl; split; [|lia].
    + rewrite (round_answered _ _ _ _ _ _ Hc Hlen).
      destruct (ast_parse (extract_code (content c))) as [[]|[]];
        try (exists []; by rewrite app_nil_r; simpl; split; [|lia]).
      destruct (decide _);
        [destruct (torn w !! filename);
         exists []; by rewrite app_nil_r; simpl; split; [|lia]|].
      by eexists [_].
  - rewrite (round_unanswered _ _ _ _ _ _ Hc). exists [].
    by rewrite app_nil_r; simpl; split; [|lia].
Qed.

(** The loop sends one request per round it starts and never writes more
    often than it asks. *)
Lemma rounds_budget filename (its : list Z) st w :
  ∃ sent stored,
    requests (for_each its (round filename) st w).2 = requests w ++ sent
    ∧ writes (for_each its (round filename) st w).2 = writes w ++ stored
    ∧ (length stored ≤ length sent)%nat
    ∧ (length sent ≤ length its)%nat
    ∧ (∀ st', (for_each its (round filename) st w).1 = Return st' →
         length sent = length its).
Proof.
  revert st w. induction its as [|i its IH]; intros [source error] w.
  - exists [], []. by rewrite !app_nil_r.
  - rewrite for_each_cons.
    pose proof (round_request filename i source error w) as Hreq.
    destruct (round_writes_at_most_one filename i source error w)
      as (stored1 & Hwr & Hone).
    destruct (round filename i (source, error) w) as [[st1|e] w1];
      simpl in Hreq, Hwr.
    + destruct (IH st1 w1) as (sent & stored & Hs & Hw & Hle & Hn & Hall).
      exists (create_prompt source error :: sent), (stored1 ++ stored).
      rewrite Hs, Hw, Hreq, Hwr, <- !app_assoc, length_app. simpl.
      split; [done|]. split; [done|]. split; [lia|]. split; [lia|].
      intros st' Hret. by rewrite (Hall st' Hret).
    + exists [create_prompt source error], stored1. simpl.
      split; [done|]. split; [done|]. split; [done|]. split; [lia|]. done.
Qed.


End EveryRun.

(** X10.  The request budget.  In every run, however it ends, [main] sends at
    most [iterations] requests (none when the count is not positive) and
    performs at most one write per request; a run that returns normally has
    sent exactly [iterations] requests. *)
Theorem request_budget `{Libraries} (filename : str) (iterations : Z) (w : world) :
  ∃ sent stored,
    requests (main filename iterations w).2 = requests w ++ sent
    ∧ writes (main filename iterations w).2 = writes w ++ stored
    ∧ (length stored ≤ length sent)%nat
    ∧ (length sent ≤ Z.to_nat iterations)%nat
    ∧ ((main filename iterations w).1 = Return tt →
       length sent = Z.to_nat iterations).
Proof.
  assert (Hlen : length (range iterations) = Z.to_nat iterations)
    by (unfold range; by rewrite length_fmap, length_seq).
  destruct (files w !! filename) as [source|] eqn:Hfile.
  - destruct (ast_parse source) as [[]|e] eqn:Hp.
    + rewrite (main_valid _ _ _ _ Hfile Hp).
      destruct (rounds_budget filename (range iterations) (source, [])
                  (printed (banner filename iterations) w))
        as (sent & stored & Hs & Hw & Hle & Hn & Hall).
      exists sent, stored. rewrite Hlen in Hn, Hall.
      destruct (for_each _ _ _ _) as [[st|e] w']; simpl in *.
      * repeat split; try done. intros _. by eapply Hall.
      * by repeat split.
    + rewrite (main_invalid _ _ _ _ _ Hfile Hp). exists [], []. simpl.
      rewrite !app_nil_r. repeat split; try done; lia.
  - rewrite (main_missing _ _ _ Hfile). exists [], []. simpl.
    rewrite !app_nil_r. repeat split; try done; lia.
Qed.

Lemma request_budget_witness :
  let L := Stub.playing [Stub.stop (Stub.fenced Stub.y_is_2);
                         Stub.stop (Stub.fenced Stub.broken_def)] in
  let w := Stub.disk Stub.a_py Stub.x_is_1 in
  (main Stub.a_py 2 w).1 = Return tt
  ∧ ∃ sent stored,
      requests (main Stub.a_py 2 w).2 = requests w ++ sent
      ∧ writes (main Stub.a_py 2 w).2 = writes w ++ stored
      ∧ (length stored ≤ length sent)%nat
      ∧ (length sent ≤ Z.to_nat 2)%nat
      ∧ ((main Stub.a_py 2 w).1 = Return tt → length sent = Z.to_nat 2).
Proof.
  intros L w. split; [vm_compute; reflexivity|].
  exact (request_budget Stub.a_py 2 w).
Defined.



(** ** Candidates the parser lets through *)

(** X13.  A blank reply wipes the file.  When the reply is white space only
    its candidate is the empty text; a parser that accepts the empty text,
    as [ast.parse] does, lets it through, and one iteration of [main]
    replaces the content of a writable target by nothing. *)
Theorem blank_reply_empties_file `{Libraries}
    (filename source : str) (w : world) (c : completion) :
  files w !! filename = Some source →
  ast_parse source = Return tt →
  filename ∉ readonly w →
  ChatCompletion_create (length (requests w)) (create_prompt source [])
    = Return c →
  finish_reason c ≠ lit "length" →
  Forall (λ ch, isspace ch = true) (content c) →
  ast_parse [] = Return tt →
  ∃ w', main filename 1 w = (Return tt, w')
        ∧ files w' !! filename = Some []
        ∧ writes w' = writes w ++ [(filename, [])].
Proof.
  intros Hfile Hok Hrw Hc Hlen Hblank Hempty.
  assert (Hx : extract_code (content c) = [])
    by (unfold extract_code; by rewrite (strip_blank _ Hblank)).
  rewrite (main_valid _ _ _ _ Hfile Hok).
  change (range 1) with [0]. rewrite for_each_cons.
  rewrite (round_stores filename 0 source [] (printed (banner filename 1) w) c
             _ eq_refl Hc Hlen); [|by rewrite Hx|done].
  rewrite Hx. eexists. split; [reflexivity|]. simpl.
  by rewrite lookup_insert_eq.
Qed.

Lemma blank_reply_empties_file_witness :
  let c := Completion (lit "stop") (lit "
") in
  let L := Stub.playing [Return c] in
  let w := Stub.disk Stub.a_py Stub.x_is_1 in
  Forall (λ ch, isspace ch = true) (content c)
  ∧ ast_parse [] = Return tt
  ∧ ∃ w', main Stub.a_py 1 w = (Return tt, w')
          ∧ files w' !! Stub.a_py = Some []
          ∧ writes w' = writes w ++ [(Stub.a_py, [])].
Proof.
  intros c L w.
  assert (Hfile : files w !! Stub.a_py = Some Stub.x_is_1)
    by (vm_compute; reflexivity).
  assert (Hok : ast_parse Stub.x_is_1 = Return tt) by (vm_compute; reflexivity).
  assert (Hc : ChatCompletion_create (length (requests w))
                 (create_prompt Stub.x_is_1 []) = Return c) by reflexivity.
  assert (Hlen : finish_reason c ≠ lit "length") by (vm_compute; discriminate).
  assert (Hblank : Forall (λ ch, isspace ch = true) (content c))
    by (repeat constructor).
  assert (Hempty : ast_parse [] = Return tt) by (vm_compute; reflexivity).
  split; [exact Hblank|]. split; [exact Hempty|].
  exact (blank_reply_empties_file Stub.a_py Stub.x_is_1 w c Hfile Hok
           (stub_disk_writable _ _) Hc Hlen Hblank Hempty).
Defined.

Section WriteLog.
Context `{Libraries}.
Implicit Types (filename source error : str) (w : world).

(** The write log of [k] rounds that are all answered in full and whose
    candidates parse or raise [SyntaxError]. *)
Lemma rounds_write_log filename (k : nat) :
  ∀ (a : nat) source error w,
    (∀ (i : nat) (p : str), (i < k)%nat →
       ∃ c, ChatCompletion_create (length (requests w) + i) p = Return c
            ∧ finish_reason c ≠ lit "length") →
    (∀ text, ast_parse text = Return tt
             ∨ ∃ msg, ast_parse text = Raise (SyntaxError msg)) →
    filename ∉ readonly w →
    ∃ prompts st' w',
      for_each (Z.of_nat <$> seq a k) (round filename) (source, error) w
      = (Return st', w')
      ∧ requests w' = requests w ++ prompts
      ∧ readonly w' = readonly w
      ∧ writes w'
        = writes w
          ++ ((λ cand, (filename, cand))
                <$> filter (λ cand, parses cand = true)
                      (candidates (length (requests w)) prompts)).
Proof.
  induction k as [|k IH]; intros a source error w Hservice Hparser Hrw.
  - exists [], (source, error), w. simpl. by rewrite !app_nil_r.
  - destruct (Hservice 0%nat (create_prompt source error)) as (c & Hc & Hlen);
      [lia|]. rewrite Nat.add_0_r in Hc.
    set (p := create_prompt source error) in *.
    set (cand := extract_code (content c)).
    assert (Hnext : ∀ w1, requests w1 = requests w ++ [p] →
              ∀ (i : nat) (q : str), (i < k)%nat →
                ∃ c', ChatCompletion_create (length (requests w1) + i) q
                        = Return c'
                      ∧ finish_reason c' ≠ lit "length").
    { intros w1 Hw1 i q Hi. rewrite Hw1, length_app. simpl.
      replace (length (requests w) + 1 + i)%nat
        with (length (requests w) + S i)%nat by lia.
      apply Hservice. lia. }
    assert (Hlen1 : ∀ w1, requests w1 = requests w ++ [p] →
              length (requests w1) = S (length (requests w))).
    { intros w1 ->. rewrite length_app. simpl. lia. }
    cbn [seq fmap list_fmap]. rewrite for_each_cons.
    destruct (Hparser cand) as [Hok|[msg Hbad]].
    + rewrite (round_stores filename _ source error w c _ eq_refl Hc Hlen Hok Hrw).
      lazymatch goal with
      | |- context [for_each _ _ _ ?w1] =>
          destruct (IH (S a) cand [] w1) as (ps & st' & w' & Hrun & Hreq & Hro & Hwr);
            [by apply Hnext|done|done|];
          rewrite (Hlen1 w1 eq_refl) in Hwr
      end.
      exists (p :: ps), st', w'. cbn [candidates]. fold p. rewrite Hc. fold cand.
      rewrite filter_cons, decide_True by (by apply parses_Return).
      split; [exact Hrun|].
      split; [by rewrite Hreq; simpl; rewrite <- app_assoc|].
      split; [done|]. rewrite Hwr. simpl. by rewrite <- app_assoc.
    + rewrite (round_rejects filename _ source error w c msg _ eq_refl Hc Hlen Hbad).
      lazymatch goal with
      | |- context [for_each _ _ _ ?w1] =>
          destruct (IH (S a) source msg w1) as (ps & st' & w' & Hrun & Hreq & Hro & Hwr);
            [by apply Hnext|done|done|];
          rewrite (Hlen1 w1 eq_refl) in Hwr
      end.
      exists (p :: ps), st', w'. cbn [candidates]. fold p. rewrite Hc. fold cand.
      rewrite filter_cons, decide_False
        by (unfold parses; rewrite Hbad; discriminate).
      split; [exact Hrun|].
      split; [by rewrite Hreq; simpl; rewrite <- app_assoc|].
      split; [done|]. by rewrite Hwr.
Qed.

End WriteLog.

(** X14.  Every candidate that parses is written at once, in its round, not
    only the last one: in a run whose requests are all answered in full and
    whose candidates parse or raise [SyntaxError], the writes performed are
    the parsing candidates, in the order of their rounds, one write each,
    all to the target. *)
Theorem every_valid_candidate_is_written `{Libraries}
    (filename source : str) (n : Z) (w : world) :
  files w !! filename = Some source →
  ast_parse source = Return tt →
  filename ∉ readonly w →
  (∀ (i : nat) (p : str), (i < Z.to_nat n)%nat →
     ∃ c, ChatCompletion_create (length (requests w) + i) p = Return c
          ∧ finish_reason c ≠ lit "length") →
  (∀ text, ast_parse text = Return tt
           ∨ ∃ msg, ast_parse text = Raise (SyntaxError msg)) →
  ∃ prompts w',
    main filename n w = (Return tt, w')
    ∧ requests w' = requests w ++ prompts
    ∧ writes w'
      = writes w
        ++ ((λ cand, (filename, cand))
              <$> filter (λ cand, parses cand = true)
                    (candidates (length (requests w)) prompts)).
Proof.
  intros Hfile Hok Hrw Hservice Hparser.
  destruct (rounds_write_log filename (Z.to_nat n) 0 source []
              (printed (banner filename n) w))
    as (prompts & st' & w' & Hrun & Hreq & _ & Hwr); try done.
  fold (range n) in Hrun. simpl in Hreq, Hwr.
  exists prompts, (printed (farewell filename) w').
  rewrite (main_valid _ _ _ _ Hfile Hok), Hrun. by destruct st'.
Qed.

Lemma every_valid_candidate_is_written_witness :
  let L := Stub.playing [Stub.stop (Stub.fenced Stub.y_is_2);
                         Stub.stop (Stub.fenced Stub.broken_def);
                         Stub.stop (Stub.fenced Stub.x_is_1)] in
  let w := Stub.disk Stub.a_py Stub.x_is_1 in
  writes (main Stub.a_py 3 w).2
  = [(Stub.a_py, Stub.y_is_2); (Stub.a_py, Stub.x_is_1)]
  ∧ ∃ prompts w',
      main Stub.a_py 3 w = (Return tt, w')
      ∧ requests w' = requests w ++ prompts
      ∧ writes w'
        = writes w
          ++ ((λ cand, (Stub.a_py, cand))
                <$> filter (λ cand, parses cand = true)
                      (candidates (length (requests w)) prompts)).
Proof.
  intros L w.
  assert (Hservice : ∀ (i : nat) (p : str), (i < Z.to_nat 3)%nat →
            ∃ c, ChatCompletion_create (length (requests w) + i) p = Return c
                 ∧ finish_reason c ≠ lit "length").
  { intros [|[|[|i]]] p Hi; [| | |exfalso; simpl in Hi; lia];
      (eexists; split; [reflexivity|vm_compute; discriminate]). }
  split; [vm_compute; reflexivity|].
  refine (every_valid_candidate_is_written Stub.a_py Stub.x_is_1 3 w
            _ _ (stub_disk_writable _ _) Hservice stub_parser_decides);
    by vm_compute.
Defined.

(** ** Replies with text around the fence *)

(** X17.  A fence is only removed at the very start.  When the reply opens
    with other text (a sentence before the code block), the opening marker
    and that text stay in the candidate; the marker that ends the reply
    still goes. *)
Theorem extract_code_prose_before_fence (ch : N) (prose body : str) :
  isspace ch = false →
  ch ≠ 96%N →
  extract_code (ch :: prose ++ BACKTICKS ++ body ++ BACKTICKS)
  = ch :: prose ++ BACKTICKS ++ body.
Proof.
  intros Hsp Hch.
  assert (Hstrip : strip (ch :: prose ++ BACKTICKS ++ body ++ BACKTICKS)
                   = ch :: prose ++ BACKTICKS ++ body ++ BACKTICKS).
  { unfold strip. rewrite (lstrip_head _ _ Hsp).
    replace (ch :: prose ++ BACKTICKS ++ body ++ BACKTICKS)
      with ((ch :: prose ++ BACKTICKS ++ body) ++ BACKTICKS)
      by (simpl; by rewrite <- !app_assoc).
    apply rstrip_fenced. }
  unfold extract_code. rewrite Hstrip.
  assert (startswith (ch :: prose ++ BACKTICKS ++ body ++ BACKTICKS) BACKTICKS
          = false) as ->.
  { rewrite BACKTICKS_unfold. cbn [startswith].
    destruct (N.eqb_spec 96 ch) as [Heq|_]; [congruence|reflexivity]. }
  replace (ch :: prose ++ BACKTICKS ++ body ++ BACKTICKS)
    with ((ch :: prose ++ BACKTICKS ++ body) ++ BACKTICKS)
    by (simpl; by rewrite <- !app_assoc).
  by rewrite endswith_app, slice_to_last_app.
Qed.

Lemma extract_code_prose_before_fence_witness :
  isspace 72%N = false
  ∧ 72%N ≠ 96%N
  ∧ extract_code (lit "Here you go:
```x = 1
```") = lit "Here you go:
```x = 1
".
Proof.
  assert (Hsp : isspace 72%N = false) by reflexivity.
  assert (Hch : 72%N ≠ 96%N) by discriminate.
  split; [exact Hsp|]. split; [exact Hch|].
  exact (extract_code_prose_before_fence 72%N (lit "ere you go:
") (lit "x = 1
") Hsp Hch).
Defined.

(** ** The console of a round *)

(** X18.  What a round with a complete reply prints, in this order: the
    separator, the number of the round counted from one, the diff between
    the source and the candidate, joined by newlines into one [print].  The
    diff is printed before the candidate is parsed; after a [SyntaxError]
    its message follows as one more line, after a stored candidate nothing
    follows. *)
Theorem round_transcript `{Libraries}
    (filename source error : str) (i : Z) (w : world) (c : completion) :
  ChatCompletion_create (length (requests w)) (create_prompt source error)
    = Return c →
  finish_reason c ≠ lit "length" →
  let new_source := extract_code (content c) in
  let shown_lines :=
    [lit "====================================="; 
     lit "Iteration: " ++ str_of_int (i + 1);
     join (lit "
") (unified_diff (splitlines source) (splitlines new_source))] in
  stdout (round filename i (source, error) w).2
  = stdout w ++ shown_lines
      ++ match ast_parse new_source with
         | Raise (SyntaxError msg) => [msg]
         | _ => []
         end.
Proof.
  intros Hc Hlen new_source shown_lines.
  rewrite (round_answered _ _ _ _ _ _ Hc Hlen). fold new_source.
  destruct (ast_parse new_source) as [[]|[]]; simpl;
    try (destruct (decide _); [destruct (torn w !! filename)|]; simpl);
    by rewrite <- ?app_assoc, ?app_nil_r.
Qed.

Lemma round_transcript_witness :
  let c := Completion (lit "stop") (Stub.fenced Stub.broken_def) in
  let L := Stub.playing [Return c] in
  let w := Stub.disk Stub.a_py Stub.x_is_1 in
  stdout (round Stub.a_py 4 (Stub.x_is_1, []) w).2
  = stdout w
    ++ [lit "====================================="; 
        lit "Iteration: " ++ str_of_int (4 + 1);
        join (lit "
") (unified_diff (splitlines Stub.x_is_1)
      (splitlines (extract_code (content c))))]
    ++ match ast_parse (extract_code (content c)) with
       | Raise (SyntaxError msg) => [msg]
       | _ => []
       end.
Proof.
  intros c L w.
  assert (Hc : ChatCompletion_create (length (requests w))
                 (create_prompt Stub.x_is_1 []) = Return c) by reflexivity.
  assert (Hlen : finish_reason c ≠ lit "length") by (vm_compute; discriminate).
  exact (round_transcript Stub.a_py Stub.x_is_1 [] 4 w c Hc Hlen).
Defined.
